(** * Port-binding resolution and readiness polling of testcontainers-node

    A shallow embedding of
    [packages/testcontainers/src/utils/bound-ports.ts] (class [BoundPorts],
    [resolveHostPortBinding]) and of
    [packages/testcontainers/src/generic-container/inspect-container-until-ports-exposed.ts]
    ([inspectContainerUntilPortsExposed]), with the properties the
    specification states about them.

    Conventions of the embedding.
    - A JavaScript string is a [string] of 8-bit characters; [toLowerCase]
      and the white space skipped by [parseInt] act on the ASCII range.
    - A JavaScript number that the code uses as a port is an integer [Z];
      the result of [parseInt] is [option Z], [None] standing for [NaN].
    - [Map<K, V>] and plain objects used as dictionaries are insertion-ordered
      association lists without duplicate keys.
    - [throw new Error(m)] is the result [Throw (JsError m)].
    - [net.isIP], [mapInspectResult], the container runtime and the clock
      are parameters of the definitions that use them.
    - [utils/port.ts] and [IntervalRetry] are not among the sources; the
      definitions that stand for them follow the specification and say so. *)

From Stdlib Require Import String Ascii List ZArith Bool Lia DecimalString.
From Stdlib Require Import DecimalPos.
Import ListNotations.

Open Scope list_scope.
Open Scope Z_scope.
Open Scope string_scope.

Set Implicit Arguments.

(* ------------------------------------------------------------------ *)
(** ** Results of computations that may throw *)

(** [JsError m] is [new Error(m)]; [InvalidPortSpec] is the error of the
    port normalizer, whose message the sources do not contain. *)
Inductive Error : Type :=
| InvalidPortSpec : Error
| JsError (message : string) : Error.

Inductive result (A : Type) : Type :=
| Ok (a : A) : result A
| Throw (e : Error) : result A.

Arguments Ok {A} a.
Arguments Throw {A} e.

Definition bind {A B : Type} (r : result A) (k : A -> result B) : result B :=
  match r with
  | Ok a => k a
  | Throw e => Throw e
  end.

Notation "x <- r ;; k" := (bind r (fun x => k))
  (at level 61, r at next level, right associativity).

(** The messages of the errors the sources raise, under the names the
    specification gives to them. *)
Definition BindingNotFound (key : string) : Error :=
  JsError ("No port binding found for :" ++ key).
Definition NoBindingsPresent : Error := JsError "No port bindings found".
Definition NoHostPortForFamily : Error := JsError "No host port found for host IP".
Definition PortExposureTimeout : Error :=
  JsError "Container did not expose all ports after starting".

(* ------------------------------------------------------------------ *)
(** ** JavaScript string primitives *)

Module Js.

Definition slash : ascii := "/"%char.

(** [c.toLowerCase()] on one ASCII character. *)
Definition lowerChar (c : ascii) : ascii :=
  let n := nat_of_ascii c in
  if (Nat.leb 65 n && Nat.leb n 90)%bool then ascii_of_nat (n + 32) else c.

(** [s.toLowerCase()]. *)
Fixpoint toLowerCase (s : string) : string :=
  match s with
  | EmptyString => EmptyString
  | String c s' => String (lowerChar c) (toLowerCase s')
  end.

(** [s.includes(String(c))]. *)
Fixpoint includes (c : ascii) (s : string) : bool :=
  match s with
  | EmptyString => false
  | String d s' => if Ascii.eqb d c then true else includes c s'
  end.

(** [s.split(String(sep))]: the segments between the separators; never
    the empty list. *)
Fixpoint split (sep : ascii) (s : string) : list string :=
  match s with
  | EmptyString => [EmptyString]
  | String c s' =>
      if Ascii.eqb c sep then EmptyString :: split sep s'
      else match split sep s' with
           | seg :: rest => String c seg :: rest
           | [] => [String c EmptyString]
           end
  end.

(** [`${n}`] for an integer [n]. *)
Definition toString (n : Z) : string := NilEmpty.string_of_int (Z.to_int n).

Definition isDigit (c : ascii) : bool :=
  let n := nat_of_ascii c in (Nat.leb 48 n && Nat.leb n 57)%bool.

Definition digitValue (c : ascii) : Z := Z.of_nat (nat_of_ascii c) - 48.

Definition isWhiteSpace (c : ascii) : bool :=
  let n := nat_of_ascii c in
  (Nat.leb 9 n && Nat.leb n 13 || Nat.eqb n 32)%bool.

Fixpoint skipWhiteSpace (s : string) : string :=
  match s with
  | String c s' => if isWhiteSpace c then skipWhiteSpace s' else s
  | EmptyString => s
  end.

(** The longest prefix of decimal digits, accumulated left to right;
    [None] when there is no digit. *)
Fixpoint digits (acc : option Z) (s : string) : option Z :=
  match s with
  | String c s' =>
      if isDigit c
      then digits (Some (10 * match acc with Some a => a | None => 0 end
                         + digitValue c)) s'
      else acc
  | EmptyString => acc
  end.

(** [parseInt(s, 10)]: leading white space, an optional sign, then the
    longest run of digits; [None] is [NaN]. *)
Definition parseInt (s : string) : option Z :=
  match skipWhiteSpace s with
  | String "-" s' => option_map Z.opp (digits None s')
  | String "+" s' => digits None s'
  | s' => digits None s'
  end.

End Js.

(* ------------------------------------------------------------------ *)
(** ** [Map<K, V>] as an insertion-ordered association list *)

Module JsMap.
Section Ops.
Variables K V : Type.
Variable eqb : K -> K -> bool.

Definition t : Type := list (K * V).

Definition empty : t := [].

(** [m.get(k)]; [None] is [undefined]. *)
Fixpoint get (k : K) (m : t) : option V :=
  match m with
  | [] => None
  | (k', v) :: m' => if eqb k k' then Some v else get k m'
  end.

(** [m.has(k)]. *)
Definition has (k : K) (m : t) : bool :=
  match get k m with Some _ => true | None => false end.

(** [m.set(k, v)]: an existing key keeps its place, a new one goes last. *)
Fixpoint set (k : K) (v : V) (m : t) : t :=
  match m with
  | [] => [(k, v)]
  | (k', v') :: m' => if eqb k k' then (k, v) :: m' else (k', v') :: set k v m'
  end.

End Ops.
End JsMap.

(* ------------------------------------------------------------------ *)
(** ** Port declarations ([utils/port.ts]) *)

(** [PortWithOptionalBinding]: a bare number, a string, or a record with
    the container port, the requested host port and an optional protocol. *)
Inductive PortWithOptionalBinding : Type :=
| PortNumber (port : Z)
| PortString (port : string)
| PortBinding (container : Z) (host : option Z) (protocol : option string).

Record PortSpec : Type := mkPortSpec { containerPort : Z; protocol : string }.

(** Modelled from the spec: the container port written in a string, read as
    a decimal number; a string with anything but digits has no port. *)
Definition parsePort (s : string) : option Z :=
  if (negb (String.eqb s "") && forallb Js.isDigit (list_ascii_of_string s))%bool
  then Js.digits None s else None.

(** Modelled from the spec: "split once on the first [/]"; the part of [s]
    before its first ["/"], and the part after it when there is one. *)
Fixpoint splitOnce (s : string) : string * option string :=
  match s with
  | EmptyString => (EmptyString, None)
  | String c s' =>
      if Ascii.eqb c Js.slash then (EmptyString, Some s')
      else let '(l, r) := splitOnce s' in (String c l, r)
  end.

(** Modelled from the spec: a container port is a positive integer, and
    anything else is an [InvalidPortSpec]. *)
Definition positive_port (n : Z) (protocol : string) : result PortSpec :=
  if (0 <? n)%Z then Ok (mkPortSpec n protocol) else Throw InvalidPortSpec.

(** Modelled from the spec: [utils/port.ts] is not among the sources; this
    is the normalizer of section 4.1.  A bare integer has protocol ["tcp"];
    a string without ["/"] is a bare port number in string form with
    protocol ["tcp"]; a string with ["/"] is split once on the first ["/"]
    and its right-hand side is lower-cased as the protocol; a record has a
    container port and an optional protocol that defaults to ["tcp"] and is
    lower-cased.  It fails with [InvalidPortSpec] when the container port is
    not a positive integer. *)
Definition normalize (input : PortWithOptionalBinding) : result PortSpec :=
  match input with
  | PortNumber n => positive_port n "tcp"
  | PortString s =>
      let '(l, r) := splitOnce s in
      match parsePort l with
      | Some n =>
          positive_port n
            match r with Some p => Js.toLowerCase p | None => "tcp" end
      | None => Throw InvalidPortSpec
      end
  | PortBinding n _ p =>
      positive_port n
        match p with Some p => Js.toLowerCase p | None => "tcp" end
  end.

(** Modelled from the spec: [getContainerPort] and [getProtocol] of
    [utils/port.ts], which the sources import but do not contain, are the
    two components of the normalized declaration (section 4.1). *)
Definition getContainerPort (port : PortWithOptionalBinding) : result Z :=
  spec <- normalize port ;; Ok (containerPort spec).

(** Modelled from the spec: see [getContainerPort]. *)
Definition getProtocol (port : PortWithOptionalBinding) : result string :=
  spec <- normalize port ;; Ok (protocol spec).

(* ------------------------------------------------------------------ *)
(** ** Inspection results and host addresses ([types.ts], [container-runtime]) *)

Record HostPortBinding : Type := mkBinding { hostIp : string; hostPort : Z }.

Definition HostPortBindings : Type := list HostPortBinding.

Module InspectResult.
(** Of an inspection result the code reads the [ports] object only. *)
Record t : Type := mk { ports : list (string * HostPortBindings) }.
End InspectResult.

Inductive IpFamily : Type := IPv4 | IPv6.

(** The number that stands for a family: [family: 4 | 6]. *)
Definition familyCode (f : IpFamily) : Z :=
  match f with IPv4 => 4 | IPv6 => 6 end.

Record HostIp : Type := mkHostIp { address : string; family : IpFamily }.

(* ------------------------------------------------------------------ *)
(** ** [resolveHostPortBinding] *)

Section Resolver.

(** [net.isIP] of the Node.js runtime: 4 for an IPv4 address, 6 for an
    IPv6 address, 0 for any other string. *)
Variable isIP : string -> Z.

Definition isDualStackIp (hostPortBindings : HostPortBindings) : bool :=
  (Nat.eqb (length hostPortBindings) 1
   && match nth_error hostPortBindings 0 with
      | Some b => String.eqb (hostIp b) ""
      | None => false
      end)%bool.

(** [hostPortBindings.find(({ hostIp }) => net.isIP(hostIp) === family)]. *)
Definition findBinding (family : IpFamily) (hostPortBindings : HostPortBindings)
  : option HostPortBinding :=
  find (fun b => (isIP (hostIp b) =? familyCode family)%Z) hostPortBindings.

(** The loop [for (const { family } of hostIps)] and the [throw] after it. *)
Fixpoint resolveByFamily (hostIps : list HostIp) (hostPortBindings : HostPortBindings)
  : result Z :=
  match hostIps with
  | [] => Throw NoHostPortForFamily
  | h :: rest =>
      match findBinding (family h) hostPortBindings with
      | Some hostPortBinding => Ok (hostPort hostPortBinding)
      | None => resolveByFamily rest hostPortBindings
      end
  end.

Definition resolveHostPortBinding (hostIps : list HostIp)
    (hostPortBindings : HostPortBindings) : result Z :=
  if isDualStackIp hostPortBindings then
    match nth_error hostPortBindings 0 with
    | Some b => Ok (hostPort b)
    | None => Throw (JsError "TypeError") (* not reached: the list has one entry *)
    end
  else resolveByFamily hostIps hostPortBindings.

End Resolver.

(* ------------------------------------------------------------------ *)
(** ** [class BoundPorts] *)

(** The first argument of [getBinding] and [setBinding]: [number | string]. *)
Inductive PortKey : Type :=
| KeyNumber (n : Z)
| KeyString (s : string).

Definition withDefault (protocol : option string) : string :=
  match protocol with Some p => p | None => "tcp" end.

(** [!binding] for [binding : number | undefined]. *)
Definition falsy (binding : option Z) : bool :=
  match binding with
  | None => true
  | Some v => (v =? 0)%Z
  end.

Definition option_string_eqb (a b : option string) : bool :=
  match a, b with
  | Some x, Some y => String.eqb x y
  | None, None => true
  | _, _ => false
  end.

Module BoundPorts.

Record t : Type := mk { ports : JsMap.t string Z }.

(** [new BoundPorts()]. *)
Definition new : t := mk (JsMap.empty string Z).

Definition getBinding (port : PortKey) (protocol : option string) (this : t)
  : result Z :=
  let normalizedProtocol := Js.toLowerCase (withDefault protocol) in
  let key :=
    match port with
    | KeyString s => s
    | KeyNumber n => Js.toString n ++ "/" ++ normalizedProtocol
    end in
  let binding := JsMap.get String.eqb key (ports this) in
  let binding :=
    match port with
    | KeyString s =>
        if (falsy binding && Js.includes Js.slash s)%bool then
          match Js.split Js.slash s with
          | portNumber :: portProtocol :: _ =>
              let normalizedKey := portNumber ++ "/" ++ Js.toLowerCase portProtocol in
              JsMap.get String.eqb normalizedKey (ports this)
          | _ => binding (* not reached: see [split_includes] *)
          end
        else binding
    | KeyNumber _ => binding
    end in
  match binding with
  | Some v => if (v =? 0)%Z then Throw (BindingNotFound key) else Ok v
  | None => Throw (BindingNotFound key)
  end.

Definition getFirstBinding (this : t) : result Z :=
  match ports this with
  | (_, firstBinding) :: _ =>
      if (firstBinding =? 0)%Z then Throw NoBindingsPresent else Ok firstBinding
  | [] => Throw NoBindingsPresent
  end.

Definition setBinding (key : PortKey) (value : Z) (protocol : option string)
    (this : t) : t :=
  let normalizedProtocol := Js.toLowerCase (withDefault protocol) in
  match key with
  | KeyString s =>
      if Js.includes Js.slash s then
        match Js.split Js.slash s with
        | portNumber :: portProtocol :: _ =>
            let normalizedKey := portNumber ++ "/" ++ Js.toLowerCase portProtocol in
            mk (JsMap.set String.eqb normalizedKey value (ports this))
        | _ => this (* not reached: see [split_includes] *)
        end
      else mk (JsMap.set String.eqb s value (ports this))
  | KeyNumber n =>
      let portKey := Js.toString n ++ "/" ++ normalizedProtocol in
      mk (JsMap.set String.eqb portKey value (ports this))
  end.

Definition iterator (this : t) : list (string * Z) := ports this.

(** The first loop of [filter]: the map from container port to protocol. *)
Fixpoint portsWithProtocol (ports : list PortWithOptionalBinding)
    (containerPortsWithProtocol : JsMap.t Z string)
  : result (JsMap.t Z string) :=
  match ports with
  | [] => Ok containerPortsWithProtocol
  | port :: rest =>
      containerPort <- getContainerPort port ;;
      protocol <- getProtocol port ;;
      portsWithProtocol rest
        (JsMap.set Z.eqb containerPort protocol containerPortsWithProtocol)
  end.

(** The condition of the second loop of [filter]. *)
Definition retained (containerPortsWithProtocol : JsMap.t Z string)
    (internalPortWithProtocol : string) : bool :=
  let segments := Js.split Js.slash internalPortWithProtocol in
  let internalPortStr := nth 0 segments "" in
  let protocol := nth_error segments 1 in
  match Js.parseInt internalPortStr with
  | Some internalPort =>
      (JsMap.has Z.eqb internalPort containerPortsWithProtocol
       && option_string_eqb
            (option_map Js.toLowerCase
               (JsMap.get Z.eqb internalPort containerPortsWithProtocol))
            (option_map Js.toLowerCase protocol))%bool
  | None => false (* NaN is never a key of the map *)
  end.

Definition filter (ports : list PortWithOptionalBinding) (this : t) : result t :=
  containerPortsWithProtocol <- portsWithProtocol ports (JsMap.empty Z string) ;;
  Ok (fold_left
        (fun boundPorts '(internalPortWithProtocol, hostPort) =>
           if retained containerPortsWithProtocol internalPortWithProtocol
           then setBinding (KeyString internalPortWithProtocol) hostPort None boundPorts
           else boundPorts)
        (iterator this) new).

Section FromInspectResult.
Variable isIP : string -> Z.

(** The [forEach] of [fromInspectResult] over the entries that remain. *)
Fixpoint insertResolved (hostIps : list HostIp)
    (entries : list (string * HostPortBindings)) (boundPorts : t) : result t :=
  match entries with
  | [] => Ok boundPorts
  | (containerPortWithProtocol, hostBindings) :: rest =>
      hostPort <- resolveHostPortBinding isIP hostIps hostBindings ;;
      insertResolved hostIps rest
        (setBinding (KeyString containerPortWithProtocol) hostPort None boundPorts)
  end.

Definition fromInspectResult (hostIps : list HostIp)
    (inspectResult : InspectResult.t) : result t :=
  insertResolved hostIps (InspectResult.ports inspectResult) new.

End FromInspectResult.

End BoundPorts.

(* ------------------------------------------------------------------ *)
(** ** The readiness poller *)

(** [ports.every(p)] for a callback that may throw: the callback runs on
    the elements in order and stops at the first [false]. *)
Fixpoint every {A : Type} (p : A -> result bool) (l : list A) : result bool :=
  match l with
  | [] => Ok true
  | x :: l' => b <- p x ;; if b : bool then every p l' else Ok false
  end.

(** The key the poller looks up: [`${containerPort}/${protocol}`]. *)
Definition portKey (containerPort : Z) (protocol : string) : string :=
  Js.toString containerPort ++ "/" ++ protocol.

(** The body of the callback given to [every]: [ports[portKey]?.length > 0]. *)
Definition portExposed (mappedInspectResult : InspectResult.t)
    (exposedPort : PortWithOptionalBinding) : result bool :=
  containerPort <- getContainerPort exposedPort ;;
  protocol <- getProtocol exposedPort ;;
  Ok match JsMap.get String.eqb (portKey containerPort protocol)
             (InspectResult.ports mappedInspectResult) with
     | Some bindings => Nat.ltb 0 (length bindings)
     | None => false
     end.

(** One line of the log: the message and the container identifier. *)
Record LogEntry : Type := mkLogEntry { logMessage : string; logContainerId : string }.

Section IntervalRetry.

(** The state the loop runs in, the clock that reads it and the timer that
    suspends the task. *)
Variable St : Type.
Variable getTime : St -> Z.
Variable wait : Z -> St -> St.

Variables T U : Type.
Variable interval : Z.

(** Modelled from the spec: [IntervalRetry.retryUntil] of [common] is not
    among the sources; this is the loop of section 4.4, [Polling] until
    [Success] or [TimedOut].  The first tick is immediate.  Each tick
    calls [fn] and evaluates [predicate] on what it returned; a tick that
    succeeds ends the loop with that value; after a tick that fails, the
    loop ends with [onTimeout ()] if the timeout has elapsed since the
    start (so a timeout of zero allows no second tick), and otherwise
    waits for the interval and ticks again.  [None] is a run that needs
    more than [fuel] ticks. *)
Fixpoint ticks (fuel : nat) (fn : St -> result T * St) (predicate : T -> result bool)
    (onTimeout : St -> U * St) (timeoutMs startTime : Z) (s : St)
  : option (result (T + U) * St) :=
  match fuel with
  | O => None
  | S fuel' =>
      let '(r, s1) := fn s in
      match r with
      | Throw e => Some (Throw e, s1)
      | Ok t =>
          match predicate t with
          | Throw e => Some (Throw e, s1)
          | Ok true => Some (Ok (inl t), s1)
          | Ok false =>
              if (timeoutMs <=? getTime s1 - startTime)%Z
              then let '(u, s2) := onTimeout s1 in Some (Ok (inr u), s2)
              else ticks fuel' fn predicate onTimeout timeoutMs startTime
                     (wait interval s1)
          end
      end
  end.

Definition retryUntil (fuel : nat) (fn : St -> result T * St)
    (predicate : T -> result bool) (onTimeout : St -> U * St) (timeoutMs : Z) (s : St)
  : option (result (T + U) * St) :=
  ticks fuel fn predicate onTimeout timeoutMs (getTime s) s.

End IntervalRetry.

Section Poller.

(** [ContainerInspectInfo] of dockerode and [mapInspectResult] of
    [utils/map-inspect-result], which the poller only passes on. *)
Variable ContainerInspectInfo : Type.
Variable mapInspectResult : ContainerInspectInfo -> InspectResult.t.

(** The container runtime and the clock. *)
Variable World : Type.
Variable getTime : World -> Z.
Variable wait : Z -> World -> World.

(** What a run can change: the world and the log. *)
Record State : Type := mkState { world : World; logged : list LogEntry }.

Record Result : Type := mkResult {
  inspectResult : ContainerInspectInfo;
  mappedInspectResult : InspectResult.t
}.

(** The first callback of [retryUntil]: one inspection, mapped. *)
Definition inspectOnce (inspectFn : World -> result ContainerInspectInfo * World)
    (s : State) : result Result * State :=
  let '(r, w) := inspectFn (world s) in
  (inspectResult <- r ;;
   Ok (mkResult inspectResult (mapInspectResult inspectResult)),
   mkState w (logged s)).

(** The second callback: every wanted port has a non-empty binding list. *)
Definition allPortsExposed (ports : list PortWithOptionalBinding) (r : Result)
  : result bool :=
  every (portExposed (mappedInspectResult r)) ports.

(** The third callback: log the message with the container identifier,
    return [new Error(message)]. *)
Definition onTimeout (containerId : string) (s : State) : Error * State :=
  let message := "Container did not expose all ports after starting" in
  (JsError message,
   mkState (world s) (logged s ++ [mkLogEntry message containerId])%list).

(** The default of the parameter [timeout = 10_000]. *)
Definition defaultTimeout (timeout : option Z) : Z :=
  match timeout with Some t => t | None => 10000 end.

Definition inspectContainerUntilPortsExposed (fuel : nat)
    (inspectFn : World -> result ContainerInspectInfo * World)
    (ports : list PortWithOptionalBinding) (containerId : string)
    (timeout : option Z) (s : State) : option (result Result * State) :=
  let timeout := defaultTimeout timeout in
  match
    retryUntil (fun s => getTime (world s))
      (fun d s => mkState (wait d (world s)) (logged s))
      250 fuel (inspectOnce inspectFn) (allPortsExposed ports)
      (onTimeout containerId) timeout s
  with
  | None => None
  | Some (Throw e, s') => Some (Throw e, s')
  | Some (Ok (inl result), s') => Some (Ok result, s')
  | Some (Ok (inr error), s') => Some (Throw error, s')
  end.

End Poller.

(* ================================================================== *)
(** * Definitions used in the statements *)

(** The field [ports] is private: a registry is [new BoundPorts()] followed
    by calls of [setBinding]. *)
Inductive built : BoundPorts.t -> Prop :=
| built_new : built BoundPorts.new
| built_set key value protocol this :
    built this -> built (BoundPorts.setBinding key value protocol this).

(** What follows the first ["/"] of a key is in lower case. *)
Definition lowerCased (k : string) : Prop :=
  forall a b, k = a ++ String Js.slash b -> Js.includes Js.slash a = false ->
              Js.toLowerCase b = b.

Definition lowerCasedKeys (this : BoundPorts.t) : Prop :=
  forall k v, In (k, v) (BoundPorts.ports this) -> lowerCased k.

(** The key [setBinding] files a binding under. *)
Definition storedKey (key : PortKey) (protocol : option string) : string :=
  match key with
  | KeyNumber n => Js.toString n ++ "/" ++ Js.toLowerCase (withDefault protocol)
  | KeyString s =>
      match Js.split Js.slash s with
      | portNumber :: portProtocol :: _ => portNumber ++ "/" ++ Js.toLowerCase portProtocol
      | _ => s
      end
  end.

(** [setBinding key value protocol] on [this] is [set] of the map under [k]. *)
Definition storesUnder (key : PortKey) (value : Z) (protocol : option string)
    (this : BoundPorts.t) (k : string) : Prop :=
  BoundPorts.ports (BoundPorts.setBinding key value protocol this)
  = JsMap.set String.eqb k value (BoundPorts.ports this).

(** The keys [getBinding] looks up, in order: the exact key, then, for a
    string that includes ["/"], the key with its protocol lower-cased. *)
Definition lookupKeys (port : PortKey) (protocol : option string) : list string :=
  match port with
  | KeyNumber n => [Js.toString n ++ "/" ++ Js.toLowerCase (withDefault protocol)]
  | KeyString s =>
      if Js.includes Js.slash s then
        match Js.split Js.slash s with
        | portNumber :: portProtocol :: _ =>
            [s; portNumber ++ "/" ++ Js.toLowerCase portProtocol]
        | _ => [s]
        end
      else [s]
  end.

(** The value of the first of [keys] that the map has. *)
Fixpoint firstHit (keys : list string) (m : JsMap.t string Z) : option Z :=
  match keys with
  | [] => None
  | k :: keys' =>
      match JsMap.get String.eqb k m with
      | Some v => Some v
      | None => firstHit keys' m
      end
  end.

(** The invariant of the data model: every value is a port in [1, 65535]. *)
Definition validPorts (this : BoundPorts.t) : Prop :=
  forall k v, In (k, v) (BoundPorts.ports this) -> 1 <= v <= 65535.


(** ** Runs of the poller *)

Section PollerRuns.

Variable ContainerInspectInfo : Type.
Variable mapInspectResult : ContainerInspectInfo -> InspectResult.t.
Variable World : Type.
Variable wait : Z -> World -> World.
Variable inspectFn : World -> result ContainerInspectInfo * World.

(** The world in which tick [k] starts, when the ticks before it went on:
    each of them is one inspection followed by one interval of waiting. *)
Fixpoint worldBefore (k : nat) (w : World) : World :=
  match k with
  | O => w
  | S k' => worldBefore k' (wait 250 (snd (inspectFn w)))
  end.

(** The world in which tick [k] ends: one more inspection. *)
Definition worldAfter (k : nat) (w : World) : World :=
  snd (inspectFn (worldBefore k w)).

(** The tick that starts in [w] inspects without error and finds some
    wanted port without a binding. *)
Definition tickFails (ports : list PortWithOptionalBinding) (w : World) : Prop :=
  exists info,
    fst (inspectFn w) = Ok info
    /\ allPortsExposed ports (mkResult info (mapInspectResult info)) = Ok false.

End PollerRuns.

(** ** Samples for the examples *)

Definition isHexDigit (c : ascii) : bool :=
  let n := nat_of_ascii c in
  (Js.isDigit c || Nat.leb 97 n && Nat.leb n 102 || Nat.leb 65 n && Nat.leb n 70)%bool.

(** A decimal number from 0 to 255 without leading zero. *)
Definition isOctet (s : string) : bool :=
  match s with
  | EmptyString => false
  | String c s' =>
      (forallb Js.isDigit (list_ascii_of_string s)
       && (negb (Ascii.eqb c "0") || String.eqb s' "")
       && match Js.digits None s with Some n => (n <=? 255)%Z | None => false end)%bool
  end.

Definition isIPv4 (s : string) : bool :=
  let segments := Js.split "." s in
  (Nat.eqb (length segments) 4 && forallb isOctet segments)%bool.

(** Up to four hexadecimal digits; empty next to a ["::"]. *)
Definition isGroup (s : string) : bool :=
  (Nat.leb (String.length s) 4 && forallb isHexDigit (list_ascii_of_string s))%bool.

Definition isIPv6 (s : string) : bool :=
  let groups := Js.split ":" s in
  (forallb isGroup groups
   && Nat.leb 3 (length groups) && Nat.leb (length groups) 8
   && (existsb (String.eqb "") groups || Nat.eqb (length groups) 8))%bool.

(** An instance of [net.isIP] for the examples: dotted decimal is IPv4,
    groups of hexadecimal digits between colons are IPv6, and every other
    string, the empty one among them, is no address. *)
Definition sampleIsIP (s : string) : Z :=
  if isIPv4 s then 4 else if isIPv6 s then 6 else 0.

(** A scripted runtime for the examples: the world is the number of
    inspections made so far and the time; inspection [i] returns [script i]
    and takes no time; waiting moves the clock. *)
Definition SampleWorld : Type := (nat * Z)%type.

Definition sampleInspect (script : nat -> InspectResult.t) (w : SampleWorld)
  : result InspectResult.t * SampleWorld :=
  (Ok (script (fst w)), (S (fst w), snd w)).

Definition sampleTime (w : SampleWorld) : Z := snd w.

Definition sampleWait (d : Z) (w : SampleWorld) : SampleWorld := (fst w, snd w + d).

Definition sampleMap (info : InspectResult.t) : InspectResult.t := info.

(** ** Further notions: keys, declarations, snapshots *)

(** A key that [setBinding] stores under itself. *)
Definition stableKey (k : string) : Prop := storedKey (KeyString k) None = k.

(** The keys of a registry, in the order of iteration. *)
Definition keys (this : BoundPorts.t) : list string := map fst (BoundPorts.ports this).

(** The declarations [ports] are valid and [specs] are their normal forms. *)
Definition normalizedAs (ports : list PortWithOptionalBinding) (specs : list PortSpec)
  : Prop :=
  Forall2 (fun p s => normalize p = Ok s) ports specs.

(** The map from container port to protocol that [filter] builds. *)
Definition declared (specs : list PortSpec) : JsMap.t Z string :=
  fold_left (fun m s => JsMap.set Z.eqb (containerPort s) (protocol s) m) specs
    (JsMap.empty Z string).

(** The protocol of the last declaration of [specs] with container port [n]. *)
Definition lastDeclared (specs : list PortSpec) (n : Z) : option string :=
  option_map protocol (find (fun s => (containerPort s =? n)%Z) (rev specs)).

(** Every host port of the snapshot is a port in [1, 65535]. *)
Definition validHostPorts (entries : list (string * HostPortBindings)) : Prop :=
  forall g bs b, In (g, bs) entries -> In b bs -> 1 <= hostPort b <= 65535.

(** The keys under which the groups of a snapshot are stored. *)
Definition storedKeys (entries : list (string * HostPortBindings)) : list string :=
  map (fun e => storedKey (KeyString (fst e)) None) entries.

(** The value of a decimal number read from the left, after [acc]. *)
Fixpoint uintValue (acc : Z) (d : Decimal.uint) : Z :=
  match d with
  | Decimal.Nil => acc
  | Decimal.D0 l => uintValue (10 * acc) l
  | Decimal.D1 l => uintValue (10 * acc + 1) l
  | Decimal.D2 l => uintValue (10 * acc + 2) l
  | Decimal.D3 l => uintValue (10 * acc + 3) l
  | Decimal.D4 l => uintValue (10 * acc + 4) l
  | Decimal.D5 l => uintValue (10 * acc + 5) l
  | Decimal.D6 l => uintValue (10 * acc + 6) l
  | Decimal.D7 l => uintValue (10 * acc + 7) l
  | Decimal.D8 l => uintValue (10 * acc + 8) l
  | Decimal.D9 l => uintValue (10 * acc + 9) l
  end.

(** The second loop of [filter], from any registry reached so far. *)
Definition filterLoop (m : JsMap.t Z string) (entries : list (string * Z))
    (acc : BoundPorts.t) : BoundPorts.t :=
  fold_left
    (fun boundPorts '(internalPortWithProtocol, hostPort) =>
       if BoundPorts.retained m internalPortWithProtocol
       then BoundPorts.setBinding (KeyString internalPortWithProtocol) hostPort None
              boundPorts
       else boundPorts)
    entries acc.

(* ================================================================== *)
(** * Properties *)

Unset Implicit Arguments.

(** ** Strings *)

Lemma lowerChar_idem (c : ascii) : Js.lowerChar (Js.lowerChar c) = Js.lowerChar c.
Proof. destruct c as [[] [] [] [] [] [] [] []]; reflexivity. Qed.

Lemma toLowerCase_idem (s : string) :
  Js.toLowerCase (Js.toLowerCase s) = Js.toLowerCase s.
Proof.
  induction s as [|c s IH]; simpl; [reflexivity|].
  now rewrite lowerChar_idem, IH.
Qed.

Lemma lowerChar_slash (c : ascii) :
  Ascii.eqb (Js.lowerChar c) Js.slash = Ascii.eqb c Js.slash.
Proof. destruct c as [[] [] [] [] [] [] [] []]; reflexivity. Qed.

Lemma includes_toLowerCase (s : string) :
  Js.includes Js.slash (Js.toLowerCase s) = Js.includes Js.slash s.
Proof.
  induction s as [|c s IH]; simpl; [reflexivity|].
  now rewrite lowerChar_slash, IH.
Qed.

Lemma split_nonempty (sep : ascii) (s : string) : Js.split sep s <> [].
Proof.
  destruct s as [|c s]; simpl; [discriminate|].
  destruct (Ascii.eqb c sep); [discriminate|].
  destruct (Js.split sep s); discriminate.
Qed.

(** A string without the separator is its own single segment. *)
Lemma split_without (sep : ascii) (s : string) :
  Js.includes sep s = false -> Js.split sep s = [s].
Proof.
  induction s as [|c s IH]; simpl; [reflexivity|].
  destruct (Ascii.eqb c sep); [discriminate|].
  intros H. now rewrite (IH H).
Qed.

(** The segments of [a ++ sep ++ b] when [a] has no separator. *)
Lemma split_app (sep : ascii) (a b : string) :
  Js.includes sep a = false ->
  Js.split sep (a ++ String sep b) = a :: Js.split sep b.
Proof.
  induction a as [|c a IH]; simpl.
  - intros _. now rewrite Ascii.eqb_refl.
  - destruct (Ascii.eqb c sep); [discriminate|].
    intros H. now rewrite (IH H).
Qed.

Lemma includes_app (sep : ascii) (a b : string) :
  Js.includes sep (a ++ String sep b) = true.
Proof.
  induction a as [|c a IH]; simpl.
  - now rewrite Ascii.eqb_refl.
  - now destruct (Ascii.eqb c sep).
Qed.

(** A string that includes the separator has at least two segments: the
    destructuring [[portNumber, portProtocol] = key.split("/")] behind the
    test [key.includes("/")] never leaves [portProtocol] undefined. *)
Lemma split_includes (sep : ascii) (s : string) :
  Js.includes sep s = true ->
  exists a b rest, Js.split sep s = a :: b :: rest /\ Js.includes sep a = false.
Proof.
  induction s as [|c s IH]; simpl; [discriminate|].
  destruct (Ascii.eqb c sep) eqn:E.
  - intros _. destruct (Js.split sep s) as [|b rest] eqn:Es.
    + now apply split_nonempty in Es.
    + now exists EmptyString, b, rest.
  - intros H. destruct (IH H) as (a & b & rest & -> & Ha).
    exists (String c a), b, rest. simpl. now rewrite E.
Qed.

Lemma string_of_uint_no_slash (d : Decimal.uint) :
  Js.includes Js.slash (NilEmpty.string_of_uint d) = false.
Proof. induction d; simpl; auto. Qed.

(** The decimal form of an integer contains no ["/"]. *)
Lemma toString_no_slash (n : Z) : Js.includes Js.slash (Js.toString n) = false.
Proof.
  unfold Js.toString. destruct (Z.to_int n); simpl;
    apply string_of_uint_no_slash.
Qed.

(** ** Maps *)

Lemma get_set_eq (V : Type) (k : string) (v : V) (m : JsMap.t string V) :
  JsMap.get String.eqb k (JsMap.set String.eqb k v m) = Some v.
Proof.
  induction m as [|[k' v'] m IH]; simpl.
  - now rewrite String.eqb_refl.
  - destruct (String.eqb k k') eqn:E; simpl.
    + now rewrite String.eqb_refl.
    + now rewrite E.
Qed.

Lemma get_set_ne (V : Type) (k k' : string) (v : V) (m : JsMap.t string V) :
  k' <> k ->
  JsMap.get String.eqb k' (JsMap.set String.eqb k v m) = JsMap.get String.eqb k' m.
Proof.
  intros Hne. induction m as [|[k0 v0] m IH]; simpl.
  - destruct (String.eqb_spec k' k); [contradiction|reflexivity].
  - destruct (String.eqb_spec k k0) as [->|Hk]; simpl.
    + destruct (String.eqb_spec k' k0); [contradiction|reflexivity].
    + now rewrite IH.
Qed.

Lemma get_In (V : Type) (k : string) (v : V) (m : JsMap.t string V) :
  JsMap.get String.eqb k m = Some v -> In (k, v) m.
Proof.
  induction m as [|[k' v'] m IH]; simpl; [discriminate|].
  destruct (String.eqb_spec k k') as [->|Hk].
  - intros [= ->]. now left.
  - intros H. right. now apply IH.
Qed.

Lemma In_set (V : Type) (k k' : string) (v v' : V) (m : JsMap.t string V) :
  In (k', v') (JsMap.set String.eqb k v m) -> (k' = k /\ v' = v) \/ In (k', v') m.
Proof.
  induction m as [|[k0 v0] m IH]; simpl.
  - intros [[= <- <-]|[]]. now left.
  - destruct (String.eqb k k0); simpl.
    + intros [[= <- <-]|H]; [now left|now right; right].
    + intros [H|H]; [now right; left|].
      destruct (IH H) as [?|?]; [now left|now right; right].
Qed.

(** A key is cut at its first ["/"] in one way only. *)
Lemma app_slash_inj (a a' b b' : string) :
  Js.includes Js.slash a = false -> Js.includes Js.slash a' = false ->
  a ++ String Js.slash b = a' ++ String Js.slash b' -> a = a' /\ b = b'.
Proof.
  revert a'. induction a as [|c a IH]; intros [|c' a']; simpl.
  - intros _ _ [= ->]. now split.
  - intros _ H [= <- _]. now rewrite Ascii.eqb_refl in H.
  - intros H _ [= -> _]. now rewrite Ascii.eqb_refl in H.
  - destruct (Ascii.eqb c Js.slash); [discriminate|].
    destruct (Ascii.eqb c' Js.slash); [discriminate|].
    intros Ha Ha' [= -> E]. destruct (IH _ Ha Ha' E) as [-> ->]. now split.
Qed.

(** ** Registries built through the class *)

Lemma lowerCased_app (a b : string) :
  Js.includes Js.slash a = false -> lowerCased (a ++ "/" ++ Js.toLowerCase b).
Proof.
  intros Ha a' b' E Ha'. apply app_slash_inj in E; auto.
  destruct E as [_ <-]. apply toLowerCase_idem.
Qed.

Lemma lowerCased_without (s : string) :
  Js.includes Js.slash s = false -> lowerCased s.
Proof.
  intros Hs a b -> _. now rewrite includes_app in Hs.
Qed.

(** The map after [setBinding]: [set] under one of three keys. *)
Lemma setBinding_ports key value protocol this :
  exists k,
    BoundPorts.ports (BoundPorts.setBinding key value protocol this)
    = JsMap.set String.eqb k value (BoundPorts.ports this)
    /\ lowerCased k.
Proof.
  destruct key as [n|s]; simpl.
  - eexists; split; [reflexivity|]. apply lowerCased_app, toString_no_slash.
  - destruct (Js.includes Js.slash s) eqn:Hs.
    + destruct (split_includes _ _ Hs) as (a & b & rest & -> & Ha).
      eexists; split; [reflexivity|]. now apply lowerCased_app.
    + eexists; split; [reflexivity|]. now apply lowerCased_without.
Qed.

Lemma built_lowerCasedKeys this : built this -> lowerCasedKeys this.
Proof.
  induction 1 as [|key value protocol this _ IH].
  - intros k v [].
  - destruct (setBinding_ports key value protocol this) as (k & E & Hk).
    intros k' v'. rewrite E. intros H. apply In_set in H.
    destruct H as [[-> _]|H]; [assumption|]. now apply (IH k' v').
Qed.

(** ** [setBinding] and [getBinding] *)

Lemma setBinding_storedKey key value protocol this :
  BoundPorts.ports (BoundPorts.setBinding key value protocol this)
  = JsMap.set String.eqb (storedKey key protocol) value (BoundPorts.ports this).
Proof.
  destruct key as [n|s]; simpl; [reflexivity|].
  destruct (Js.includes Js.slash s) eqn:Hs.
  - destruct (split_includes _ _ Hs) as (a & b & rest & -> & _). reflexivity.
  - now rewrite (split_without _ _ Hs).
Qed.

Lemma storedKey_string (a b : string) (protocol : option string) :
  Js.includes Js.slash a = false ->
  storedKey (KeyString (a ++ "/" ++ b)) protocol
  = a ++ "/" ++ Js.toLowerCase (hd "" (Js.split Js.slash b)).
Proof.
  intros Ha. unfold storedKey.
  change (a ++ "/" ++ b) with (a ++ String Js.slash b).
  rewrite (split_app _ _ b Ha).
  destruct (Js.split Js.slash b) as [|p rest] eqn:E; [|reflexivity].
  now apply split_nonempty in E.
Qed.

(** C5, as amended.  [setBinding] with a string key [a/b] ([a] without
    ["/"]) stores under [a], ["/"] and the lower-cased protocol segment of
    [b] (all of [b] when [b] has no further ["/"]), whatever the protocol
    parameter is; with a number key it stores under the number, ["/"] and
    the lower-cased protocol parameter, ["tcp"] by default; with a string
    key without ["/"] it stores under that string as it is, and the
    protocol parameter is not used. *)
Theorem setBinding_stored_key (value : Z) (protocol : option string) (this : BoundPorts.t) :
  (forall a b, Js.includes Js.slash a = false ->
     storesUnder (KeyString (a ++ "/" ++ b)) value protocol this
       (a ++ "/" ++ Js.toLowerCase (hd "" (Js.split Js.slash b)))
     /\ (Js.includes Js.slash b = false ->
         storesUnder (KeyString (a ++ "/" ++ b)) value protocol this
           (a ++ "/" ++ Js.toLowerCase b)))
  /\ (forall n,
        storesUnder (KeyNumber n) value protocol this
          (Js.toString n ++ "/" ++ Js.toLowerCase (withDefault protocol)))
  /\ (forall s, Js.includes Js.slash s = false ->
        storesUnder (KeyString s) value protocol this s).
Proof.
  unfold storesUnder. split; [|split].
  - intros a b Ha. rewrite setBinding_storedKey, (storedKey_string _ _ _ Ha).
    split; [reflexivity|]. intros Hb. now rewrite (split_without _ _ Hb).
  - intros n. now rewrite setBinding_storedKey.
  - intros s Hs. rewrite setBinding_storedKey. unfold storedKey.
    now rewrite (split_without _ _ Hs).
Qed.

Lemma setBinding_stored_key_witness :
  BoundPorts.ports
    (BoundPorts.setBinding (KeyString "8080/TCP") 45000 (Some "udp") BoundPorts.new)
  = [("8080/tcp", 45000)]
  /\ BoundPorts.ports
       (BoundPorts.setBinding (KeyNumber 8080) 45000 (Some "UDP") BoundPorts.new)
     = [("8080/udp", 45000)]
  /\ BoundPorts.ports
       (BoundPorts.setBinding (KeyString "8080") 45000 (Some "udp") BoundPorts.new)
     = [("8080", 45000)].
Proof.
  destruct (setBinding_stored_key 45000 (Some "udp") BoundPorts.new) as (H1 & _ & H3).
  destruct (setBinding_stored_key 45000 (Some "UDP") BoundPorts.new) as (_ & H2 & _).
  split; [|split].
  - exact (proj2 (H1 "8080" "TCP" eq_refl) eq_refl).
  - exact (H2 8080).
  - exact (H3 "8080" eq_refl).
Defined.

(** C5 as stated fails for a string key without ["/"]: the key ["8080"]
    with protocol ["udp"] is not stored under ["8080/udp"]. *)
Lemma setBinding_string_key_not_synthesized :
  ~ storesUnder (KeyString "8080") 45000 (Some "udp") BoundPorts.new
      ("8080" ++ "/" ++ Js.toLowerCase (withDefault (Some "udp")))
  /\ JsMap.get String.eqb "8080/udp"
       (BoundPorts.ports
          (BoundPorts.setBinding (KeyString "8080") 45000 (Some "udp") BoundPorts.new))
     = None.
Proof. split; [intros H; discriminate H|reflexivity]. Qed.

Lemma validPorts_get this k v :
  validPorts this -> JsMap.get String.eqb k (BoundPorts.ports this) = Some v ->
  (v =? 0)%Z = false.
Proof.
  intros Hv Hg. apply get_In in Hg. apply Hv in Hg. apply Z.eqb_neq. lia.
Qed.

(** [getBinding] returns the first hit among its keys, and throws when
    there is none. *)
Lemma getBinding_firstHit this port protocol :
  validPorts this ->
  BoundPorts.getBinding port protocol this
  = match firstHit (lookupKeys port protocol) (BoundPorts.ports this) with
    | Some v => Ok v
    | None => Throw (BindingNotFound (hd "" (lookupKeys port protocol)))
    end.
Proof.
  intros Hv. unfold BoundPorts.getBinding, lookupKeys.
  destruct port as [n|s]; simpl.
  - destruct (JsMap.get String.eqb _ _) as [v|] eqn:Hg; [|reflexivity].
    now rewrite (validPorts_get _ _ _ Hv Hg).
  - destruct (Js.includes Js.slash s) eqn:Hs.
    + destruct (split_includes _ _ Hs) as (a & b & rest & -> & _). simpl.
      destruct (JsMap.get String.eqb s _) as [v|] eqn:Hg; simpl.
      * rewrite (validPorts_get _ _ _ Hv Hg). simpl.
        now rewrite (validPorts_get _ _ _ Hv Hg).
      * destruct (JsMap.get String.eqb (a ++ _) _) as [v|] eqn:Hg'; [|reflexivity].
        now rewrite (validPorts_get _ _ _ Hv Hg').
    + rewrite Bool.andb_false_r. simpl.
      destruct (JsMap.get String.eqb s _) as [v|] eqn:Hg; [|reflexivity].
      now rewrite (validPorts_get _ _ _ Hv Hg).
Qed.







Lemma portKey_includes n p : Js.includes Js.slash (portKey n p) = true.
Proof. apply includes_app. Qed.

Lemma portKey_split n p :
  Js.includes Js.slash p = false -> Js.split Js.slash (portKey n p) = [Js.toString n; p].
Proof.
  intros Hp. unfold portKey.
  change (Js.toString n ++ "/" ++ p) with (Js.toString n ++ String Js.slash p).
  now rewrite (split_app _ _ _ (toString_no_slash n)), (split_without _ _ Hp).
Qed.

Lemma storedKey_portKey n p q :
  Js.includes Js.slash p = false ->
  storedKey (KeyString (portKey n p)) q = portKey n (Js.toLowerCase p).
Proof. intros Hp. unfold storedKey. now rewrite (portKey_split _ _ Hp). Qed.

(** A registry built through the class has no entry under a key whose
    protocol is not in lower case. *)
Lemma built_get_mixed_case this n p :
  built this -> Js.toLowerCase p <> p ->
  JsMap.get String.eqb (portKey n p) (BoundPorts.ports this) = None.
Proof.
  intros Hb Hp.
  destruct (JsMap.get String.eqb (portKey n p) (BoundPorts.ports this)) as [w|] eqn:Hg;
    [|reflexivity].
  apply get_In in Hg. apply (built_lowerCasedKeys _ Hb) in Hg.
  destruct Hp. apply (Hg (Js.toString n) p eq_refl), toString_no_slash.
Qed.

(** Lookup, by either form of the key, of a binding that was just stored
    under the lower-cased key. *)
Lemma getBinding_after_set this this' n p p' v q :
  built this -> 1 <= v <= 65535 ->
  Js.includes Js.slash p' = false ->
  Js.toLowerCase p' = p ->
  BoundPorts.ports this' = JsMap.set String.eqb (portKey n p) v (BoundPorts.ports this) ->
  BoundPorts.getBinding (KeyString (portKey n p')) q this' = Ok v
  /\ BoundPorts.getBinding (KeyNumber n) (Some p') this' = Ok v.
Proof.
  intros Hb Hv Hp' Hl E.
  assert (Hv0 : (v =? 0)%Z = false) by (apply Z.eqb_neq; lia).
  split.
  - unfold BoundPorts.getBinding.
    rewrite (portKey_includes n p'), (portKey_split _ _ Hp'), E, Hl, get_set_eq.
    destruct (String.eqb_spec (portKey n p') (portKey n p)) as [->|Hne].
    + rewrite get_set_eq. simpl. rewrite Hv0. simpl. now rewrite Hv0.
    + rewrite (get_set_ne _ _ _ _ _ Hne).
      rewrite (built_get_mixed_case this n p' Hb).
      * simpl. now rewrite Hv0.
      * intros Hc. apply Hne. now rewrite <- Hl, Hc.
  - unfold BoundPorts.getBinding. simpl withDefault. rewrite Hl, E.
    change (Js.toString n ++ "/" ++ p) with (portKey n p).
    rewrite get_set_eq. now rewrite Hv0.
Qed.

(** C6.  On a registry built through the class, a binding with a host port
    in [1, 65535] that [setBinding] stores for port [n] under one casing of
    a protocol token is what [getBinding] returns for [n] under any other
    casing of the token, whether the port is given as the string [n/token]
    or as the number [n] with the token as the protocol. *)
Theorem getBinding_any_casing (this : BoundPorts.t) (n v : Z) (P P' : string)
    (q q' : option string) :
  built this ->
  1 <= v <= 65535 ->
  Js.includes Js.slash P = false ->
  Js.includes Js.slash P' = false ->
  Js.toLowerCase P = Js.toLowerCase P' ->
  let byString := BoundPorts.setBinding (KeyString (portKey n P)) v q this in
  let byNumber := BoundPorts.setBinding (KeyNumber n) v (Some P) this in
  BoundPorts.getBinding (KeyString (portKey n P')) q' byString = Ok v
  /\ BoundPorts.getBinding (KeyNumber n) (Some P') byString = Ok v
  /\ BoundPorts.getBinding (KeyString (portKey n P')) q' byNumber = Ok v
  /\ BoundPorts.getBinding (KeyNumber n) (Some P') byNumber = Ok v.
Proof.
  intros Hb Hv HP HP' Hl byString byNumber.
  assert (H1 : BoundPorts.ports byString
               = JsMap.set String.eqb (portKey n (Js.toLowerCase P)) v (BoundPorts.ports this)).
  { unfold byString. now rewrite setBinding_storedKey, (storedKey_portKey _ _ _ HP). }
  assert (H2 : BoundPorts.ports byNumber
               = JsMap.set String.eqb (portKey n (Js.toLowerCase P)) v (BoundPorts.ports this)).
  { unfold byNumber. now rewrite setBinding_storedKey. }
  destruct (getBinding_after_set this byString n _ P' v q' Hb Hv HP' (eq_sym Hl) H1).
  destruct (getBinding_after_set this byNumber n _ P' v q' Hb Hv HP' (eq_sym Hl) H2).
  repeat split; assumption.
Qed.

Lemma getBinding_any_casing_witness :
  BoundPorts.getBinding (KeyString "8080/tcp") None
    (BoundPorts.setBinding (KeyString "8080/TCP") 45000 None BoundPorts.new) = Ok 45000
  /\ BoundPorts.getBinding (KeyNumber 8080) (Some "tcp")
       (BoundPorts.setBinding (KeyString "8080/TCP") 45000 None BoundPorts.new) = Ok 45000.
Proof.
  assert (Hv : 1 <= 45000 <= 65535) by lia.
  destruct (getBinding_any_casing BoundPorts.new 8080 45000 "TCP" "tcp" None None
              built_new Hv eq_refl eq_refl eq_refl) as (H1 & H2 & _).
  split; [exact H1|exact H2].
Defined.

(** ** The resolver *)

(** [find] returns the first element that satisfies the test. *)
Lemma find_first (A : Type) (f : A -> bool) (l : list A) (b : A) :
  find f l = Some b <->
  exists j, nth_error l j = Some b /\ f b = true /\
            forall j' b', (j' < j)%nat -> nth_error l j' = Some b' -> f b' = false.
Proof.
  induction l as [|x l IH]; simpl.
  - split; [discriminate|]. intros ([|j] & H & _); discriminate H.
  - destruct (f x) eqn:Hx.
    + split.
      * intros [= <-]. exists 0%nat. repeat split; [assumption|]. intros j' b' Hj. lia.
      * intros ([|j] & Hn & Hb & Hmin); simpl in Hn.
        -- now injection Hn as ->.
        -- specialize (Hmin 0%nat x (Nat.lt_0_succ j) eq_refl). congruence.
    + rewrite IH. split.
      * intros (j & Hn & Hb & Hmin). exists (S j). repeat split; try assumption.
        intros [|j'] b' Hj; simpl.
        -- now intros [= <-].
        -- apply Hmin. lia.
      * intros ([|j] & Hn & Hb & Hmin); simpl in Hn.
        -- injection Hn as ->. congruence.
        -- exists j. repeat split; try assumption.
           intros j' b' Hj Hn'. apply (Hmin (S j') b'); [lia|assumption].
Qed.

Section ResolverProperties.

Variable isIP : string -> Z.

Lemma findBinding_first (f : IpFamily) (bindings : HostPortBindings) (b : HostPortBinding) :
  findBinding isIP f bindings = Some b <->
  exists j, nth_error bindings j = Some b /\ isIP (hostIp b) = familyCode f /\
            forall j' b', (j' < j)%nat -> nth_error bindings j' = Some b' ->
                          isIP (hostIp b') <> familyCode f.
Proof.
  unfold findBinding. rewrite find_first. split.
  - intros (j & Hn & Hb & Hmin). exists j. repeat split; [assumption| |].
    + now apply Z.eqb_eq.
    + intros j' b' Hj Hn'. apply Z.eqb_neq. now apply (Hmin j' b').
  - intros (j & Hn & Hb & Hmin). exists j. repeat split; [assumption| |].
    + now apply Z.eqb_eq.
    + intros j' b' Hj Hn'. apply Z.eqb_neq. now apply (Hmin j' b').
Qed.

(** The loop returns the port of the binding found for the first family,
    in the order of [hostIps], for which one is found. *)
Lemma resolveByFamily_Ok (hostIps : list HostIp) (bindings : HostPortBindings) (port : Z) :
  resolveByFamily isIP hostIps bindings = Ok port <->
  exists i h b,
    nth_error hostIps i = Some h
    /\ findBinding isIP (family h) bindings = Some b
    /\ hostPort b = port
    /\ forall i' h', (i' < i)%nat -> nth_error hostIps i' = Some h' ->
                     findBinding isIP (family h') bindings = None.
Proof.
  induction hostIps as [|h0 rest IH]; simpl.
  - split; [discriminate|]. intros ([|i] & h & b & H & _); discriminate H.
  - destruct (findBinding isIP (family h0) bindings) as [b0|] eqn:E0.
    + split.
      * intros [= <-]. exists 0%nat, h0, b0. repeat split; [assumption|].
        intros i' h' Hi. lia.
      * intros ([|i] & h & b & Hn & Hf & Hp & Hmin); simpl in Hn.
        -- injection Hn as <-. congruence.
        -- specialize (Hmin 0%nat h0 (Nat.lt_0_succ i) eq_refl). congruence.
    + rewrite IH. split.
      * intros (i & h & b & Hn & Hf & Hp & Hmin).
        exists (S i), h, b. repeat split; try assumption.
        intros [|i'] h' Hi; simpl.
        -- now intros [= <-].
        -- apply Hmin. lia.
      * intros ([|i] & h & b & Hn & Hf & Hp & Hmin); simpl in Hn.
        -- injection Hn as <-. congruence.
        -- exists i, h, b. repeat split; try assumption.
           intros i' h' Hi Hn'. apply (Hmin (S i') h'); [lia|assumption].
Qed.

(** The loop throws when no family finds a binding. *)
Lemma resolveByFamily_Throw (hostIps : list HostIp) (bindings : HostPortBindings) :
  (forall h, In h hostIps -> findBinding isIP (family h) bindings = None) ->
  resolveByFamily isIP hostIps bindings = Throw NoHostPortForFamily.
Proof.
  induction hostIps as [|h0 rest IH]; simpl; [reflexivity|].
  intros H. rewrite (H h0 (or_introl eq_refl)). apply IH.
  intros h Hh. apply H. now right.
Qed.

(** C4.  Whatever the list of host IP families, its order, or whether it
    is empty, the resolver returns the host port of a binding list that
    consists of one entry with the empty string as host IP. *)
Theorem resolve_dual_stack_wildcard (hostIps : list HostIp) (port : Z) :
  resolveHostPortBinding isIP hostIps [mkBinding "" port] = Ok port.
Proof. reflexivity. Qed.

(** C3.  For a binding list that is not a dual-stack wildcard, the
    resolver takes the families in the order of [hostIps]; for a family
    the binding found is the first of the list whose host IP [net.isIP]
    classifies as that family; the result is the host port of the binding
    found for the first family that finds one.  With the bindings
    [10.0.0.1 -> 100] and [::1 -> 200] the preference [IPv4] gives 100 and
    the preference [IPv6] gives 200. *)
Theorem resolve_family_preference (hostIps : list HostIp) (bindings : HostPortBindings) :
  isDualStackIp bindings = false ->
  (forall f b,
     findBinding isIP f bindings = Some b <->
     exists j, nth_error bindings j = Some b /\ isIP (hostIp b) = familyCode f /\
               forall j' b', (j' < j)%nat -> nth_error bindings j' = Some b' ->
                             isIP (hostIp b') <> familyCode f)
  /\ (forall port,
        resolveHostPortBinding isIP hostIps bindings = Ok port <->
        exists i h b,
          nth_error hostIps i = Some h
          /\ findBinding isIP (family h) bindings = Some b
          /\ hostPort b = port
          /\ forall i' h', (i' < i)%nat -> nth_error hostIps i' = Some h' ->
                           findBinding isIP (family h') bindings = None)
  /\ (isIP "10.0.0.1" = 4 -> isIP "::1" = 6 ->
      forall a,
        resolveHostPortBinding isIP [mkHostIp a IPv4]
          [mkBinding "10.0.0.1" 100; mkBinding "::1" 200] = Ok 100
        /\ resolveHostPortBinding isIP [mkHostIp a IPv6]
             [mkBinding "10.0.0.1" 100; mkBinding "::1" 200] = Ok 200).
Proof.
  intros Hd. split; [|split].
  - intros f b. apply findBinding_first.
  - intros port. unfold resolveHostPortBinding. rewrite Hd.
    apply resolveByFamily_Ok.
  - intros H4 H6 a. unfold resolveHostPortBinding, findBinding. simpl.
    rewrite H4, H6. simpl. split; reflexivity.
Qed.

(** C10.  The binding found for a family never has the empty string as
    host IP, since [net.isIP] of the empty string is 0.  So from a list of
    more than one entry the resolver returns the port of an entry with a
    host IP, and it throws when every entry is a wildcard.  With no host IP
    family at all, resolving a list that is not a dual-stack wildcard
    throws [NoHostPortForFamily]. *)
Theorem wildcard_only_when_sole (hostIps : list HostIp) (bindings : HostPortBindings) :
  isIP "" = 0 ->
  (1 < length bindings)%nat ->
  (forall f b, findBinding isIP f bindings = Some b -> hostIp b <> "")
  /\ (forall port,
        resolveHostPortBinding isIP hostIps bindings = Ok port ->
        exists h b, In h hostIps
                    /\ findBinding isIP (family h) bindings = Some b
                    /\ hostPort b = port /\ hostIp b <> "")
  /\ ((forall b, In b bindings -> hostIp b = "") ->
      resolveHostPortBinding isIP hostIps bindings = Throw NoHostPortForFamily)
  /\ (forall others, isDualStackIp others = false ->
        resolveHostPortBinding isIP [] others = Throw NoHostPortForFamily).
Proof.
  intros H0 Hlen.
  assert (Hfind : forall f b, findBinding isIP f bindings = Some b -> hostIp b <> "").
  { intros f b Hf Hb. apply findBinding_first in Hf.
    destruct Hf as (_ & _ & Hc & _). rewrite Hb, H0 in Hc. now destruct f. }
  assert (Hd : isDualStackIp bindings = false).
  { unfold isDualStackIp. destruct bindings as [|b1 [|b2 l]]; simpl in *;
      [lia|lia|reflexivity]. }
  split; [exact Hfind|split; [|split]].
  - intros port. unfold resolveHostPortBinding. rewrite Hd, resolveByFamily_Ok.
    intros (i & h & b & Hn & Hf & Hp & _).
    exists h, b. repeat split; try assumption.
    + now apply nth_error_In in Hn.
    + now apply (Hfind (family h)).
  - intros Hall. unfold resolveHostPortBinding. rewrite Hd.
    apply resolveByFamily_Throw. intros h _.
    destruct (findBinding isIP (family h) bindings) as [b|] eqn:Hf; [|reflexivity].
    destruct (Hfind _ _ Hf). apply Hall.
    apply findBinding_first in Hf. destruct Hf as (j & Hn & _).
    now apply nth_error_In in Hn.
  - intros others Ho. unfold resolveHostPortBinding. now rewrite Ho.
Qed.

End ResolverProperties.

Lemma resolve_family_preference_witness :
  isDualStackIp [mkBinding "10.0.0.1" 100; mkBinding "::1" 200] = false
  /\ resolveHostPortBinding sampleIsIP [mkHostIp "127.0.0.1" IPv4]
       [mkBinding "10.0.0.1" 100; mkBinding "::1" 200] = Ok 100
  /\ resolveHostPortBinding sampleIsIP [mkHostIp "::1" IPv6]
       [mkBinding "10.0.0.1" 100; mkBinding "::1" 200] = Ok 200
  /\ resolveHostPortBinding sampleIsIP [mkHostIp "::1" IPv6; mkHostIp "127.0.0.1" IPv4]
       [mkBinding "10.0.0.1" 100; mkBinding "::1" 200] = Ok 200.
Proof.
  pose (bindings := [mkBinding "10.0.0.1" 100; mkBinding "::1" 200]).
  assert (Hd : isDualStackIp bindings = false) by reflexivity.
  split; [exact Hd|].
  destruct (resolve_family_preference sampleIsIP [mkHostIp "127.0.0.1" IPv4] bindings Hd)
    as (_ & _ & Hex).
  destruct (Hex eq_refl eq_refl "127.0.0.1") as [H4 _].
  destruct (Hex eq_refl eq_refl "::1") as [_ H6].
  split; [exact H4|split; [exact H6|]].
  destruct (resolve_family_preference sampleIsIP
              [mkHostIp "::1" IPv6; mkHostIp "127.0.0.1" IPv4] bindings Hd)
    as (_ & Hres & _).
  apply Hres. exists 0%nat, (mkHostIp "::1" IPv6), (mkBinding "::1" 200).
  repeat split. intros i' h' Hi. lia.
Defined.

Lemma wildcard_only_when_sole_witness :
  resolveHostPortBinding sampleIsIP [mkHostIp "127.0.0.1" IPv4; mkHostIp "::1" IPv6]
    [mkBinding "" 45000; mkBinding "" 45001] = Throw NoHostPortForFamily
  /\ resolveHostPortBinding sampleIsIP []
       [mkBinding "10.0.0.1" 100; mkBinding "::1" 200] = Throw NoHostPortForFamily.
Proof.
  assert (H0 : sampleIsIP "" = 0) by reflexivity.
  assert (Hlen : (1 < length [mkBinding "" 45000; mkBinding "" 45001])%nat)
    by (simpl; lia).
  destruct (wildcard_only_when_sole sampleIsIP
              [mkHostIp "127.0.0.1" IPv4; mkHostIp "::1" IPv6]
              [mkBinding "" 45000; mkBinding "" 45001] H0 Hlen)
    as (_ & _ & Hall & Hnone).
  split.
  - apply Hall. intros b [<-|[<-|[]]]; reflexivity.
  - apply Hnone. reflexivity.
Defined.

(** ** The poller *)

Lemma every_true (A : Type) (f : A -> result bool) (l : list A) :
  every f l = Ok true <-> Forall (fun x => f x = Ok true) l.
Proof.
  induction l as [|x l IH]; simpl.
  - split; [constructor|reflexivity].
  - destruct (f x) as [[|]|e] eqn:Hx; simpl.
    + rewrite IH. split.
      * now constructor.
      * now inversion 1.
    + split; [discriminate|]. inversion 1; congruence.
    + split; [discriminate|]. inversion 1; congruence.
Qed.

Lemma portExposed_true (mapped : InspectResult.t) (p : PortWithOptionalBinding) :
  portExposed mapped p = Ok true <->
  exists spec bindings,
    normalize p = Ok spec
    /\ JsMap.get String.eqb (portKey (containerPort spec) (protocol spec))
         (InspectResult.ports mapped) = Some bindings
    /\ bindings <> [].
Proof.
  unfold portExposed, getContainerPort, getProtocol.
  destruct (normalize p) as [spec|e]; simpl.
  - destruct (JsMap.get String.eqb _ _) as [bindings|] eqn:Hg.
    + destruct bindings as [|b bindings]; simpl.
      * split; [discriminate|]. intros (spec' & bs & [= <-] & Hg' & Hne).
        rewrite Hg in Hg'. now injection Hg' as <-.
      * split; [|reflexivity]. intros _. exists spec, (b :: bindings).
        repeat split; [assumption|discriminate].
    + split; [discriminate|]. intros (spec' & bs & [= <-] & Hg' & _).
      rewrite Hg in Hg'. discriminate Hg'.
  - split; [discriminate|]. intros (? & ? & H & _). discriminate H.
Qed.

Lemma append_inj_r (a b c : string) : a ++ b = a ++ c -> b = c.
Proof. induction a as [|x a IH]; simpl; [auto|]. intros [= H]. auto. Qed.

Lemma portKey_inj (n : Z) (p p' : string) : portKey n p = portKey n p' -> p = p'.
Proof.
  unfold portKey. intros H. apply append_inj_r in H. now injection H.
Qed.

Section RetryProperties.

Variable St : Type.
Variable getTime : St -> Z.
Variable wait : Z -> St -> St.
Variables T U : Type.
Variable interval : Z.
Variable fn : St -> result T * St.
Variable predicate : T -> result bool.
Variable onTimeout : St -> U * St.
Variable timeoutMs : Z.

(** A value the loop returns is one that satisfied the predicate. *)
Lemma ticks_success (fuel : nat) (startTime : Z) (s s' : St) (t : T) :
  ticks getTime wait interval fuel fn predicate onTimeout timeoutMs startTime s
  = Some (Ok (inl t), s') ->
  predicate t = Ok true.
Proof.
  revert s. induction fuel as [|fuel IH]; intros s; simpl; [discriminate|].
  destruct (fn s) as [[t0|e] s1]; [|discriminate].
  destruct (predicate t0) as [[|]|e] eqn:Hp; [| |discriminate].
  - now intros [= <- _].
  - destruct (timeoutMs <=? getTime s1 - startTime)%Z.
    + destruct (onTimeout s1). discriminate.
    + apply IH.
Qed.

End RetryProperties.

Section PollerProperties.

Variable ContainerInspectInfo : Type.
Variable mapInspectResult : ContainerInspectInfo -> InspectResult.t.
Variable World : Type.
Variable getTime : World -> Z.
Variable wait : Z -> World -> World.
Variable inspectFn : World -> result ContainerInspectInfo * World.

#[local] Abbreviation poll := (inspectContainerUntilPortsExposed mapInspectResult getTime wait).
#[local] Abbreviation loop :=
  (ticks (fun s : State World => getTime (world s))
         (fun d s => mkState (wait d (world s)) (logged s)) 250).
#[local] Abbreviation snapshot info := (mkResult info (mapInspectResult info)).

(** The loop, started at any time, after [k + 1] failing ticks of which
    the last is the first to end when the timeout has elapsed. *)
Lemma loop_timeout (ports : list PortWithOptionalBinding) (containerId : string)
    (timeoutMs startTime : Z) (k : nat) :
  forall (fuel : nat) (s : State World),
    (forall i, (i <= k)%nat ->
               tickFails mapInspectResult inspectFn ports
                 (worldBefore wait inspectFn i (world s))) ->
    (forall i, (i < k)%nat ->
               getTime (worldAfter wait inspectFn i (world s)) - startTime < timeoutMs) ->
    timeoutMs <= getTime (worldAfter wait inspectFn k (world s)) - startTime ->
    (k < fuel)%nat ->
    loop fuel (inspectOnce mapInspectResult inspectFn) (allPortsExposed ports)
      (onTimeout containerId) timeoutMs startTime s
    = Some (Ok (inr PortExposureTimeout),
            mkState (worldAfter wait inspectFn k (world s))
              (logged s
               ++ [mkLogEntry "Container did not expose all ports after starting"
                     containerId])%list).
Proof.
  induction k as [|k IH]; intros fuel s Hfail Hearly Hlate Hfuel;
    (destruct fuel as [|fuel]; [lia|]).
  - destruct (Hfail 0%nat (Nat.le_refl 0)) as (info & Hi & Hp).
    unfold worldAfter in *. simpl in *. unfold inspectOnce.
    destruct (inspectFn (world s)) as [r w]. simpl in *. subst r. simpl.
    rewrite Hp. simpl.
    destruct (Z.leb_spec timeoutMs (getTime w - startTime)); [reflexivity|lia].
  - destruct (Hfail 0%nat (Nat.le_0_l _)) as (info & Hi & Hp).
    specialize (Hearly 0%nat (Nat.lt_0_succ k)) as He0.
    specialize (IH fuel
                  (mkState (wait 250 (snd (inspectFn (world s)))) (logged s))).
    unfold worldAfter in *. simpl in *. unfold inspectOnce.
    destruct (inspectFn (world s)) as [r w] eqn:E. simpl in *. subst r. simpl.
    rewrite Hp. simpl.
    destruct (Z.leb_spec timeoutMs (getTime w - startTime)); [lia|].
    apply IH.
    + intros i Hi. specialize (Hfail (S i)). simpl in Hfail. rewrite E in Hfail.
      apply Hfail. lia.
    + intros i Hi. specialize (Hearly (S i)). simpl in Hearly. rewrite E in Hearly.
      apply Hearly. lia.
    + assumption.
    + lia.
Qed.

(** The loop, after [k] failing ticks that end before the timeout and a
    tick that succeeds. *)
Lemma loop_eventually (ports : list PortWithOptionalBinding) (containerId : string)
    (timeoutMs startTime : Z) (k : nat) (info : ContainerInspectInfo) :
  forall (fuel : nat) (s : State World),
    (forall i, (i < k)%nat ->
               tickFails mapInspectResult inspectFn ports
                 (worldBefore wait inspectFn i (world s))
               /\ getTime (worldAfter wait inspectFn i (world s)) - startTime < timeoutMs) ->
    fst (inspectFn (worldBefore wait inspectFn k (world s))) = Ok info ->
    allPortsExposed ports (snapshot info) = Ok true ->
    (k < fuel)%nat ->
    loop fuel (inspectOnce mapInspectResult inspectFn) (allPortsExposed ports)
      (onTimeout containerId) timeoutMs startTime s
    = Some (Ok (inl (snapshot info)),
            mkState (worldAfter wait inspectFn k (world s)) (logged s)).
Proof.
  induction k as [|k IH]; intros fuel s Hbefore Hi Hp Hfuel;
    (destruct fuel as [|fuel]; [lia|]).
  - unfold worldAfter. simpl in *. unfold inspectOnce.
    destruct (inspectFn (world s)) as [r w]. simpl in *. subst r. simpl.
    now rewrite Hp.
  - destruct (Hbefore 0%nat (Nat.lt_0_succ k)) as [(info0 & Hi0 & Hp0) He0].
    specialize (IH fuel
                  (mkState (wait 250 (snd (inspectFn (world s)))) (logged s))).
    unfold worldAfter in *. simpl in *. unfold inspectOnce.
    destruct (inspectFn (world s)) as [r w] eqn:E. simpl in *. subst r. simpl.
    rewrite Hp0. simpl.
    destruct (Z.leb_spec timeoutMs (getTime w - startTime)); [lia|].
    apply IH.
    + intros i Hlt. specialize (Hbefore (S i)). simpl in Hbefore.
      rewrite E in Hbefore. apply Hbefore. lia.
    + assumption.
    + assumption.
    + lia.
Qed.

(** A snapshot the loop returns is that of one tick, the first that has
    every wanted port. *)
Lemma loop_returns_first (ports : list PortWithOptionalBinding) (containerId : string)
    (timeoutMs startTime : Z) (fuel : nat) :
  forall (s s' : State World) (r : Result ContainerInspectInfo),
    loop fuel (inspectOnce mapInspectResult inspectFn) (allPortsExposed ports)
      (onTimeout containerId) timeoutMs startTime s
    = Some (Ok (inl r), s') ->
    exists k info,
      fst (inspectFn (worldBefore wait inspectFn k (world s))) = Ok info
      /\ r = snapshot info
      /\ allPortsExposed ports r = Ok true
      /\ (forall i, (i < k)%nat ->
                    tickFails mapInspectResult inspectFn ports
                      (worldBefore wait inspectFn i (world s)))
      /\ s' = mkState (worldAfter wait inspectFn k (world s)) (logged s).
Proof.
  induction fuel as [|fuel IH]; intros s s' r; simpl; [discriminate|].
  unfold inspectOnce at 1.
  destruct (inspectFn (world s)) as [[info|e] w] eqn:E; simpl; [|discriminate].
  destruct (allPortsExposed ports (snapshot info)) as [[|]|e] eqn:Hp; [| |discriminate].
  - intros [= <- <-]. exists 0%nat, info. unfold worldAfter. simpl. rewrite E.
    repeat split; try assumption. intros i Hi. lia.
  - destruct (timeoutMs <=? getTime w - startTime)%Z; [discriminate|].
    intros H. apply IH in H. simpl in H.
    destruct H as (k & info' & Hi & -> & Hp' & Hfail & ->).
    exists (S k), info'. unfold worldAfter in *. simpl. rewrite E. simpl.
    repeat split; try assumption.
    intros [|i] Hlt; simpl.
    + exists info. rewrite E. now split.
    + rewrite E. apply Hfail. lia.
Qed.

(** C2.  A tick succeeds if and only if every wanted port normalizes to a
    port and protocol whose key [port/protocol] has a non-empty binding
    list in the snapshot of that tick.  The run returns the snapshot of the
    first tick that succeeds, when the ticks before it failed and ended
    before the timeout; and whatever snapshot a run returns is that of one
    tick and has every wanted port itself, the ticks before it having
    failed: nothing carries over from one tick to the next.  A snapshot that
    has the port under another protocol only does not satisfy the request. *)
Theorem tick_succeeds_iff (ports : list PortWithOptionalBinding) :
  (forall r : Result ContainerInspectInfo,
     allPortsExposed ports r = Ok true <->
     Forall (fun p =>
               exists spec bindings,
                 normalize p = Ok spec
                 /\ JsMap.get String.eqb (portKey (containerPort spec) (protocol spec))
                      (InspectResult.ports (mappedInspectResult r)) = Some bindings
                 /\ bindings <> []) ports)
  /\ (forall containerId timeout k fuel s info,
        (forall i, (i < k)%nat ->
                   tickFails mapInspectResult inspectFn ports
                     (worldBefore wait inspectFn i (world s))
                   /\ getTime (worldAfter wait inspectFn i (world s)) - getTime (world s)
                      < defaultTimeout timeout) ->
        fst (inspectFn (worldBefore wait inspectFn k (world s))) = Ok info ->
        allPortsExposed ports (snapshot info) = Ok true ->
        (k < fuel)%nat ->
        poll fuel inspectFn ports containerId timeout s
        = Some (Ok (snapshot info),
                mkState (worldAfter wait inspectFn k (world s)) (logged s)))
  /\ (forall containerId timeout fuel s s' r,
        poll fuel inspectFn ports containerId timeout s = Some (Ok r, s') ->
        exists k info,
          fst (inspectFn (worldBefore wait inspectFn k (world s))) = Ok info
          /\ r = snapshot info
          /\ allPortsExposed ports r = Ok true
          /\ (forall i, (i < k)%nat ->
                        tickFails mapInspectResult inspectFn ports
                          (worldBefore wait inspectFn i (world s)))
          /\ s' = mkState (worldAfter wait inspectFn k (world s)) (logged s))
  /\ (forall p n proto proto' bindings (info : ContainerInspectInfo),
        normalize p = Ok (mkPortSpec n proto) ->
        proto' <> proto ->
        allPortsExposed [p]
          (mkResult info (InspectResult.mk [(portKey n proto', bindings)]))
        = Ok false).
Proof.
  split; [|split; [|split]].
  - intros r. unfold allPortsExposed. rewrite every_true.
    split; apply Forall_impl; intros p; apply portExposed_true.
  - intros containerId timeout k fuel s info Hbefore Hi Hp Hfuel.
    unfold inspectContainerUntilPortsExposed, retryUntil.
    now rewrite (loop_eventually ports containerId _ _ k info fuel s Hbefore Hi Hp Hfuel).
  - intros containerId timeout fuel s s' r.
    unfold inspectContainerUntilPortsExposed, retryUntil.
    destruct (ticks _ _ _ _ _ _ _ _ _ _) as [[[[t|u]|e] s1]|] eqn:E; try discriminate.
    intros [= <- <-]. now apply loop_returns_first in E.
  - intros p n proto proto' bindings info Hn Hne.
    unfold allPortsExposed, portExposed, getContainerPort, getProtocol. simpl.
    rewrite Hn. simpl.
    destruct (String.eqb_spec (portKey n proto) (portKey n proto')) as [E|_];
      [|reflexivity].
    apply portKey_inj in E. congruence.
Qed.

(** C7, as amended.  When the ticks of a run fail one after the other and
    tick [k] is the first to end with the timeout elapsed, the run throws
    [PortExposureTimeout], an error made of the fixed message alone; the
    container identifier goes to the log, in the one entry the run adds.
    With a timeout of zero and a clock that does not run backwards, a first
    tick that fails ends the run in the world that one inspection left: no
    waiting and no second inspection. *)
Theorem poll_timeout (ports : list PortWithOptionalBinding) (containerId : string)
    (s : State World) :
  let entry := mkLogEntry "Container did not expose all ports after starting" containerId in
  (forall timeout k fuel,
     (forall i, (i <= k)%nat ->
                tickFails mapInspectResult inspectFn ports
                  (worldBefore wait inspectFn i (world s))) ->
     (forall i, (i < k)%nat ->
                getTime (worldAfter wait inspectFn i (world s)) - getTime (world s)
                < defaultTimeout timeout) ->
     defaultTimeout timeout
     <= getTime (worldAfter wait inspectFn k (world s)) - getTime (world s) ->
     (k < fuel)%nat ->
     poll fuel inspectFn ports containerId timeout s
     = Some (Throw PortExposureTimeout,
             mkState (worldAfter wait inspectFn k (world s)) (logged s ++ [entry])%list))
  /\ (forall fuel,
        tickFails mapInspectResult inspectFn ports (world s) ->
        getTime (world s) <= getTime (snd (inspectFn (world s))) ->
        poll (S fuel) inspectFn ports containerId (Some 0) s
        = Some (Throw PortExposureTimeout,
                mkState (snd (inspectFn (world s))) (logged s ++ [entry])%list)).
Proof.
  intros entry.
  assert (Hgen : forall timeout k fuel,
     (forall i, (i <= k)%nat ->
                tickFails mapInspectResult inspectFn ports
                  (worldBefore wait inspectFn i (world s))) ->
     (forall i, (i < k)%nat ->
                getTime (worldAfter wait inspectFn i (world s)) - getTime (world s)
                < defaultTimeout timeout) ->
     defaultTimeout timeout
     <= getTime (worldAfter wait inspectFn k (world s)) - getTime (world s) ->
     (k < fuel)%nat ->
     poll fuel inspectFn ports containerId timeout s
     = Some (Throw PortExposureTimeout,
             mkState (worldAfter wait inspectFn k (world s)) (logged s ++ [entry])%list)).
  { intros timeout k fuel Hfail Hearly Hlate Hfuel.
    unfold inspectContainerUntilPortsExposed, retryUntil.
    now rewrite (loop_timeout ports containerId _ _ k fuel s Hfail Hearly Hlate Hfuel). }
  split; [exact Hgen|].
  intros fuel Hfail Hclock. apply (Hgen (Some 0) 0%nat (S fuel)).
  - intros i Hi. replace i with 0%nat by lia. exact Hfail.
  - intros i Hi. lia.
  - unfold worldAfter. simpl. lia.
  - lia.
Qed.

End PollerProperties.

Lemma tick_succeeds_iff_witness :
  let tcp := [mkBinding "0.0.0.0" 45000] in
  let udp := [mkBinding "0.0.0.0" 46000] in
  let none := InspectResult.mk [] in
  let one := InspectResult.mk [("8080/tcp", tcp)] in
  let both := InspectResult.mk [("8080/tcp", tcp); ("8080/udp", udp)] in
  let script i := match i with 0%nat => none | 1%nat => one | _ => both end in
  allPortsExposed [PortNumber 8080; PortString "8080/udp"] (mkResult both both) = Ok true
  /\ inspectContainerUntilPortsExposed sampleMap sampleTime sampleWait 3
       (sampleInspect script) [PortNumber 8080; PortString "8080/udp"]
       "container-id" None (mkState (0%nat, 0) [])
     = Some (Ok (mkResult both both), mkState (3%nat, 500) [])
  /\ allPortsExposed [PortString "8080/udp"]
       (mkResult one (InspectResult.mk [(portKey 8080 "tcp", tcp)])) = Ok false.
Proof.
  intros tcp udp none one both script.
  destruct (tick_succeeds_iff InspectResult.t sampleMap SampleWorld sampleTime sampleWait
              (sampleInspect script) [PortNumber 8080; PortString "8080/udp"])
    as (Hiff & Hrun & _ & _).
  destruct (tick_succeeds_iff InspectResult.t sampleMap SampleWorld sampleTime sampleWait
              (sampleInspect script) [PortString "8080/udp"])
    as (_ & _ & _ & Hproto).
  assert (Hall : allPortsExposed [PortNumber 8080; PortString "8080/udp"]
                   (mkResult both both) = Ok true).
  { apply (proj2 (Hiff (mkResult both both))).
    constructor; [|constructor; [|constructor]].
    - exists (mkPortSpec 8080 "tcp"), tcp.
      split; [reflexivity|split; [reflexivity|discriminate]].
    - exists (mkPortSpec 8080 "udp"), udp.
      split; [reflexivity|split; [reflexivity|discriminate]]. }
  split; [exact Hall|split].
  - apply (Hrun "container-id" None 2%nat 3%nat (mkState (0%nat, 0) []) both).
    + intros [|[|i]] Hi; [| |lia].
      * split; [exists none; split; reflexivity|reflexivity].
      * split; [exists one; split; reflexivity|reflexivity].
    + reflexivity.
    + exact Hall.
    + lia.
  - apply (Hproto (PortString "8080/udp") 8080 "udp" "tcp" tcp one eq_refl).
    discriminate.
Defined.

Lemma poll_timeout_witness :
  let empty := InspectResult.mk [("8080/tcp", [])] in
  let entry := mkLogEntry "Container did not expose all ports after starting" "container-id" in
  inspectContainerUntilPortsExposed sampleMap sampleTime sampleWait 1
    (sampleInspect (fun _ => empty)) [PortNumber 8080] "container-id" (Some 0)
    (mkState (0%nat, 0) [])
  = Some (Throw PortExposureTimeout, mkState (1%nat, 0) [entry])
  /\ inspectContainerUntilPortsExposed sampleMap sampleTime sampleWait 3
       (sampleInspect (fun _ => empty)) [PortNumber 8080] "container-id" (Some 500)
       (mkState (0%nat, 0) [])
     = Some (Throw PortExposureTimeout, mkState (3%nat, 500) [entry]).
Proof.
  intros empty entry.
  destruct (poll_timeout InspectResult.t sampleMap SampleWorld sampleTime sampleWait
              (sampleInspect (fun _ => empty)) [PortNumber 8080] "container-id"
              (mkState (0%nat, 0) []))
    as (Hgen & Hzero).
  split.
  - apply (Hzero 0%nat).
    + exists empty. split; reflexivity.
    + simpl. lia.
  - apply (Hgen (Some 500) 2%nat 3%nat).
    + intros i Hi. exists empty. split; reflexivity.
    + intros [|[|i]] Hi; [reflexivity|reflexivity|lia].
    + discriminate.
    + lia.
Defined.

(** C7 as stated fails on the content of the error: two runs that differ
    in the container identifier only raise the same error, the fixed
    message; the identifier is in the log entry alone. *)
Lemma timeout_error_omits_container_id :
  let run id :=
    inspectContainerUntilPortsExposed sampleMap sampleTime sampleWait 1
      (sampleInspect (fun _ => InspectResult.mk [("8080/tcp", [])]))
      [PortNumber 8080] id (Some 0) (mkState (0%nat, 0) []) in
  let message := "Container did not expose all ports after starting" in
  run "container-a"
  = Some (Throw (JsError message), mkState (1%nat, 0) [mkLogEntry message "container-a"])
  /\ run "container-b"
     = Some (Throw (JsError message), mkState (1%nat, 0) [mkLogEntry message "container-b"])
  /\ ~ (forall id id' e e' s s',
          run id = Some (Throw e, s) -> run id' = Some (Throw e', s') ->
          e = e' -> id = id').
Proof.
  split; [reflexivity|split; [reflexivity|]].
  intros H.
  discriminate (H "container-a" "container-b" _ _ _ _ eq_refl eq_refl eq_refl).
Qed.

(** ** [fromInspectResult] *)

Lemma has_set (V : Type) (k k' : string) (v : V) (m : JsMap.t string V) :
  JsMap.has String.eqb k (JsMap.set String.eqb k' v m) = true
  <-> k = k' \/ JsMap.has String.eqb k m = true.
Proof.
  unfold JsMap.has. destruct (String.eqb_spec k k') as [->|Hne].
  - rewrite get_set_eq. split; [now left|reflexivity].
  - rewrite (get_set_ne _ _ _ _ _ Hne). split; [now right|].
    intros [?|?]; [contradiction|assumption].
Qed.

Section FromInspectResultProperties.

Variable isIP : string -> Z.

Lemma resolveByFamily_error (hostIps : list HostIp) (bindings : HostPortBindings)
    (e : Error) :
  resolveByFamily isIP hostIps bindings = Throw e -> e = NoHostPortForFamily.
Proof.
  induction hostIps as [|h rest IH]; simpl; [now intros [= <-]|].
  destruct (findBinding isIP (family h) bindings); [discriminate|assumption].
Qed.

(** The only error of the resolver is [NoHostPortForFamily]. *)
Lemma resolve_Throw (hostIps : list HostIp) (bindings : HostPortBindings) (e : Error) :
  resolveHostPortBinding isIP hostIps bindings = Throw e -> e = NoHostPortForFamily.
Proof.
  unfold resolveHostPortBinding.
  destruct (isDualStackIp bindings) eqn:Hd; [|apply resolveByFamily_error].
  destruct bindings as [|b l]; [discriminate Hd|]. discriminate.
Qed.

(** An empty binding list resolves to no port. *)
Lemma resolve_empty (hostIps : list HostIp) :
  resolveHostPortBinding isIP hostIps [] = Throw NoHostPortForFamily.
Proof.
  unfold resolveHostPortBinding. simpl. now apply resolveByFamily_Throw.
Qed.

Lemma insertResolved_Throw (hostIps : list HostIp)
    (entries : list (string * HostPortBindings)) (acc : BoundPorts.t) (e : Error) :
  BoundPorts.insertResolved isIP hostIps entries acc = Throw e ->
  e = NoHostPortForFamily.
Proof.
  revert acc. induction entries as [|[g bs] rest IH]; intros acc; simpl; [discriminate|].
  destruct (resolveHostPortBinding isIP hostIps bs) as [port|e'] eqn:Hr; simpl.
  - apply IH.
  - intros [= <-]. now apply resolve_Throw in Hr.
Qed.

Lemma insertResolved_Ok (hostIps : list HostIp)
    (entries : list (string * HostPortBindings)) (acc reg : BoundPorts.t) :
  BoundPorts.insertResolved isIP hostIps entries acc = Ok reg ->
  (forall g bs, In (g, bs) entries ->
                exists port, resolveHostPortBinding isIP hostIps bs = Ok port)
  /\ (forall k,
        JsMap.has String.eqb k (BoundPorts.ports reg) = true <->
        JsMap.has String.eqb k (BoundPorts.ports acc) = true
        \/ exists g bs, In (g, bs) entries /\ storedKey (KeyString g) None = k).
Proof.
  revert acc. induction entries as [|[g bs] rest IH]; intros acc;
    cbn [BoundPorts.insertResolved].
  - intros [= <-]. split; [intros g bs []|].
    intros k. split; [now left|]. intros [H|(g & bs & [] & _)]. exact H.
  - destruct (resolveHostPortBinding isIP hostIps bs) as [port|e] eqn:Hr; cbn [bind];
      [|discriminate].
    intros H. destruct (IH _ H) as [Hres Hkeys]. split.
    + intros g' bs' [[= <- <-]|Hin]; [now exists port|now apply (Hres g' bs')].
    + intros k. rewrite Hkeys, setBinding_storedKey, has_set. split.
      * intros [[->|Hacc]|(g' & bs' & Hin & Hk)].
        -- right. exists g, bs. split; [now left|reflexivity].
        -- now left.
        -- right. exists g', bs'. split; [now right|assumption].
      * intros [Hacc|(g' & bs' & [[= <- <-]|Hin] & Hk)].
        -- left. now right.
        -- left. left. now symmetry.
        -- right. exists g', bs'. now split.
Qed.

(** C9.  When [fromInspectResult] returns a registry, every group of the
    snapshot had at least one binding, and a key is present in the registry
    if and only if the snapshot has a group, with at least one binding,
    whose key [setBinding] stores under it: for a group key
    [port/protocol], the key [port/protocol] with the protocol in lower
    case.  A group with an empty binding list gives no entry: from a
    snapshot with such a group no registry is built, the call throws
    [NoHostPortForFamily], which is the only error it throws. *)
Theorem fromInspectResult_keys (hostIps : list HostIp) (inspectResult : InspectResult.t) :
  ((exists g, In (g, []) (InspectResult.ports inspectResult)) ->
   BoundPorts.fromInspectResult isIP hostIps inspectResult = Throw NoHostPortForFamily)
  /\ (forall e, BoundPorts.fromInspectResult isIP hostIps inspectResult = Throw e ->
                e = NoHostPortForFamily)
  /\ (forall reg,
        BoundPorts.fromInspectResult isIP hostIps inspectResult = Ok reg ->
        (forall g bs, In (g, bs) (InspectResult.ports inspectResult) -> bs <> [])
        /\ (forall k,
              JsMap.has String.eqb k (BoundPorts.ports reg) = true <->
              exists g bs, In (g, bs) (InspectResult.ports inspectResult)
                           /\ bs <> [] /\ storedKey (KeyString g) None = k)
        /\ (forall n p bs,
              Js.includes Js.slash p = false ->
              In (portKey n p, bs) (InspectResult.ports inspectResult) ->
              JsMap.has String.eqb (portKey n (Js.toLowerCase p)) (BoundPorts.ports reg)
              = true)).
Proof.
  unfold BoundPorts.fromInspectResult.
  assert (Hok : forall reg,
            BoundPorts.insertResolved isIP hostIps (InspectResult.ports inspectResult)
              BoundPorts.new = Ok reg ->
            forall g bs, In (g, bs) (InspectResult.ports inspectResult) -> bs <> []).
  { intros reg H g bs Hin ->. apply insertResolved_Ok in H. destruct H as [Hres _].
    destruct (Hres g [] Hin) as [port Hp]. rewrite resolve_empty in Hp. discriminate. }
  split; [|split].
  - intros [g Hg].
    destruct (BoundPorts.insertResolved isIP hostIps _ _) as [reg|e] eqn:E.
    + now destruct (Hok reg eq_refl g [] Hg).
    + f_equal. now apply insertResolved_Throw in E.
  - intros e. apply insertResolved_Throw.
  - intros reg H. split; [exact (Hok reg H)|].
    destruct (insertResolved_Ok _ _ _ _ H) as [_ Hkeys].
    assert (Hk : forall k,
              JsMap.has String.eqb k (BoundPorts.ports reg) = true <->
              exists g bs, In (g, bs) (InspectResult.ports inspectResult)
                           /\ bs <> [] /\ storedKey (KeyString g) None = k).
    { intros k. rewrite Hkeys. split.
      - intros [Hnew|(g & bs & Hin & Hs)]; [discriminate Hnew|].
        exists g, bs. repeat split; try assumption. exact (Hok reg H g bs Hin).
      - intros (g & bs & Hin & _ & Hs). right. now exists g, bs. }
    split; [exact Hk|].
    intros n p bs Hp Hin. apply Hk. exists (portKey n p), bs.
    repeat split; [assumption|exact (Hok reg H _ _ Hin)|].
    now apply storedKey_portKey.
Qed.

End FromInspectResultProperties.

Lemma fromInspectResult_keys_witness :
  BoundPorts.fromInspectResult sampleIsIP [mkHostIp "127.0.0.1" IPv4]
    (InspectResult.mk [("8080/tcp", [mkBinding "0.0.0.0" 45000]); ("9090/udp", [])])
  = Throw NoHostPortForFamily
  /\ JsMap.has String.eqb "8080/tcp"
       (BoundPorts.ports
          (BoundPorts.setBinding (KeyString "8080/TCP") 45000 None BoundPorts.new))
     = true.
Proof.
  split.
  - apply (proj1 (fromInspectResult_keys sampleIsIP [mkHostIp "127.0.0.1" IPv4]
                    (InspectResult.mk
                       [("8080/tcp", [mkBinding "0.0.0.0" 45000]); ("9090/udp", [])]))).
    exists "9090/udp". right. left. reflexivity.
  - pose (snap := InspectResult.mk [("8080/TCP", [mkBinding "0.0.0.0" 45000])]).
    destruct (fromInspectResult_keys sampleIsIP [mkHostIp "127.0.0.1" IPv4] snap)
      as (_ & _ & Hok).
    destruct (Hok (BoundPorts.setBinding (KeyString "8080/TCP") 45000 None BoundPorts.new)
                eq_refl) as (_ & _ & Hcanon).
    apply (Hcanon 8080 "TCP" [mkBinding "0.0.0.0" 45000] eq_refl).
    left. reflexivity.
Defined.

(** ** [filter] *)

(** C1.  [filter] keeps one protocol for each container port, that of the
    last declaration with the port.  Wanted ports [8080] and ["8080/udp"]
    leave of the registry [{8080/tcp: 1, 8080/udp: 2}] the entry
    [8080/udp] alone: the entry [8080/tcp], which matches the first
    declaration, is dropped.  With declarations of distinct ports the
    registry [{8080/tcp: 1, 9090/udp: 2}] filtered by [8080] is
    [{8080/tcp: 1}]. *)
Theorem filter_same_port_two_protocols :
  BoundPorts.portsWithProtocol [PortNumber 8080; PortString "8080/udp"]
    (JsMap.empty Z string) = Ok [(8080, "udp")]
  /\ BoundPorts.filter [PortNumber 8080; PortString "8080/udp"]
       (BoundPorts.mk [("8080/tcp", 1); ("8080/udp", 2)])
     = Ok (BoundPorts.mk [("8080/udp", 2)])
  /\ BoundPorts.filter [PortString "8080/udp"; PortNumber 8080]
       (BoundPorts.mk [("8080/tcp", 1); ("8080/udp", 2)])
     = Ok (BoundPorts.mk [("8080/tcp", 1)])
  /\ BoundPorts.filter [PortNumber 8080]
       (BoundPorts.mk [("8080/tcp", 1); ("9090/udp", 2)])
     = Ok (BoundPorts.mk [("8080/tcp", 1)]).
Proof. repeat split. Qed.

(* ================================================================== *)
(** * Further properties of the code *)

(** ** Decimal strings *)

Lemma digits_string_of_uint (d : Decimal.uint) (acc : Z) :
  Js.digits (Some acc) (NilEmpty.string_of_uint d) = Some (uintValue acc d).
Proof.
  revert acc. induction d; intros acc; simpl; try reflexivity;
    rewrite IHd; f_equal; f_equal; unfold Js.digitValue; simpl; lia.
Qed.

Lemma digits_None_string_of_uint (d : Decimal.uint) :
  d <> Decimal.Nil ->
  Js.digits None (NilEmpty.string_of_uint d) = Some (uintValue 0 d).
Proof.
  destruct d; intros Hd; [now destruct Hd|..]; simpl;
    rewrite digits_string_of_uint; reflexivity.
Qed.

Lemma of_uint_acc_value (d : Decimal.uint) (acc : positive) :
  Zpos (Pos.of_uint_acc d acc) = uintValue (Zpos acc) d.
Proof.
  revert acc.
  induction d; intros acc; cbn [uintValue Pos.of_uint_acc]; try reflexivity;
    rewrite IHd; apply (f_equal (fun a => uintValue a d)); lia.
Qed.

Lemma of_uint_value (d : Decimal.uint) : Z.of_N (Pos.of_uint d) = uintValue 0 d.
Proof.
  induction d; simpl; try reflexivity; try assumption;
    rewrite of_uint_acc_value; reflexivity.
Qed.

Lemma to_uint_value (p : positive) : uintValue 0 (Pos.to_uint p) = Zpos p.
Proof.
  rewrite <- of_uint_value, DecimalPos.Unsigned.of_to. reflexivity.
Qed.

Lemma to_uint_not_Nil (p : positive) : Pos.to_uint p <> Decimal.Nil.
Proof.
  intros H. pose proof (to_uint_value p) as E. rewrite H in E. discriminate E.
Qed.

(** White space and sign are not what a decimal string starts with. *)
Lemma parseInt_string_of_uint (d : Decimal.uint) :
  d <> Decimal.Nil ->
  Js.parseInt (NilEmpty.string_of_uint d) = Some (uintValue 0 d).
Proof.
  intros Hd. rewrite <- (digits_None_string_of_uint d Hd).
  destruct d; [now destruct Hd|..]; reflexivity.
Qed.

(** [parseInt(`${n}`, 10)] is [n]. *)
Lemma parseInt_toString (n : Z) : Js.parseInt (Js.toString n) = Some n.
Proof.
  unfold Js.toString. destruct n as [|p|p]; simpl.
  - reflexivity.
  - rewrite (parseInt_string_of_uint _ (to_uint_not_Nil p)).
    now rewrite to_uint_value.
  - unfold Js.parseInt. simpl.
    rewrite (digits_None_string_of_uint _ (to_uint_not_Nil p)). simpl.
    now rewrite to_uint_value.
Qed.

(** ** More on maps *)

Lemma get_None_keys (V : Type) (k : string) (m : JsMap.t string V) :
  JsMap.get String.eqb k m = None <-> ~ In k (map fst m).
Proof.
  induction m as [|[k' v'] m IH]; simpl.
  - split; [intros _ []|reflexivity].
  - destruct (String.eqb_spec k k') as [->|Hne].
    + split; [discriminate|]. intros H. destruct H. now left.
    + rewrite IH. split.
      * intros H [E|Hin]; [now apply Hne|now apply H].
      * intros H Hin. apply H. now right.
Qed.

Lemma get_NoDup (V : Type) (k : string) (v : V) (m : JsMap.t string V) :
  NoDup (map fst m) -> In (k, v) m -> JsMap.get String.eqb k m = Some v.
Proof.
  induction m as [|[k' v'] m IH]; simpl; [intros _ []|].
  intros Hnd [[= -> ->]|Hin].
  - now rewrite String.eqb_refl.
  - inversion Hnd as [|? ? Hk Hnd']; subst.
    destruct (String.eqb_spec k k') as [->|_]; [|now apply IH].
    destruct Hk. now apply (in_map fst) in Hin.
Qed.

(** [set] of a new key appends the entry. *)
Lemma set_fresh (V : Type) (k : string) (v : V) (m : JsMap.t string V) :
  ~ In k (map fst m) -> JsMap.set String.eqb k v m = (m ++ [(k, v)])%list.
Proof.
  induction m as [|[k' v'] m IH]; simpl; [reflexivity|].
  intros H. destruct (String.eqb_spec k k') as [->|_].
  - destruct H. now left.
  - rewrite IH; [reflexivity|]. intros Hin. apply H. now right.
Qed.

(** [set] twice under one key is the second [set]. *)
Lemma set_set (V : Type) (k : string) (v1 v2 : V) (m : JsMap.t string V) :
  JsMap.set String.eqb k v2 (JsMap.set String.eqb k v1 m) = JsMap.set String.eqb k v2 m.
Proof.
  induction m as [|[k' v'] m IH]; simpl.
  - now rewrite String.eqb_refl.
  - destruct (String.eqb k k') eqn:E; simpl.
    + now rewrite String.eqb_refl.
    + now rewrite E, IH.
Qed.

Lemma keys_set (V : Type) (k : string) (v : V) (m : JsMap.t string V) :
  map fst (JsMap.set String.eqb k v m)
  = if JsMap.has String.eqb k m then map fst m else (map fst m ++ [k])%list.
Proof.
  unfold JsMap.has. induction m as [|[k' v'] m IH]; simpl; [reflexivity|].
  destruct (String.eqb_spec k k') as [->|_]; simpl; [reflexivity|].
  rewrite IH. now destruct (JsMap.get String.eqb k m).
Qed.

Lemma NoDup_set (V : Type) (k : string) (v : V) (m : JsMap.t string V) :
  NoDup (map fst m) -> NoDup (map fst (JsMap.set String.eqb k v m)).
Proof.
  intros Hnd. rewrite keys_set. unfold JsMap.has.
  destruct (JsMap.get String.eqb k m) eqn:Hg; [assumption|].
  apply get_None_keys in Hg.
  apply NoDup_app; [assumption|repeat constructor; intros []|].
  intros x Hx [<-|[]]. contradiction.
Qed.

Lemma validPorts_set (key : PortKey) (value : Z) (protocol : option string)
    (this : BoundPorts.t) :
  validPorts this -> 1 <= value <= 65535 ->
  validPorts (BoundPorts.setBinding key value protocol this).
Proof.
  intros Hv Hval k v. rewrite setBinding_storedKey. intros Hin.
  apply In_set in Hin. destruct Hin as [[_ ->]|Hin]; [assumption|].
  now apply (Hv k v).
Qed.

Lemma firstHit_set_other (keys : list string) (k : string) (v : Z)
    (m : JsMap.t string Z) :
  ~ In k keys ->
  firstHit keys (JsMap.set String.eqb k v m) = firstHit keys m.
Proof.
  induction keys as [|k' keys IH]; simpl; [reflexivity|].
  intros H. rewrite get_set_ne.
  - rewrite IH; [reflexivity|]. intros Hin. apply H. now right.
  - intros ->. apply H. now left.
Qed.

(** ** [getFirstBinding], [setBinding] and [getBinding] together *)

(** X1.  On a registry whose values are ports, [getFirstBinding] throws
    [NoBindingsPresent] exactly when the registry is empty, and otherwise
    returns the value of the key that was inserted first.  A [setBinding]
    with a port as value changes the answer only when the registry was
    empty or when it overwrites that first key. *)
Theorem getFirstBinding_first_inserted (this : BoundPorts.t) (key : PortKey)
    (value : Z) (protocol : option string) :
  validPorts this ->
  1 <= value <= 65535 ->
  (BoundPorts.getFirstBinding this = Throw NoBindingsPresent
   <-> BoundPorts.ports this = [])
  /\ (forall k0 v0 rest,
        BoundPorts.ports this = (k0, v0) :: rest ->
        BoundPorts.getFirstBinding this = Ok v0
        /\ BoundPorts.getFirstBinding (BoundPorts.setBinding key value protocol this)
           = Ok (if String.eqb (storedKey key protocol) k0 then value else v0))
  /\ (BoundPorts.ports this = [] ->
      BoundPorts.getFirstBinding (BoundPorts.setBinding key value protocol this)
      = Ok value).
Proof.
  intros Hv Hval.
  assert (Hnz : (value =? 0)%Z = false) by (apply Z.eqb_neq; lia).
  unfold BoundPorts.getFirstBinding. rewrite setBinding_storedKey.
  destruct (BoundPorts.ports this) as [|[k0 v0] rest] eqn:E.
  - split; [split; reflexivity|]. split; [discriminate|].
    intros _. simpl. now rewrite Hnz.
  - assert (Hv0 : (v0 =? 0)%Z = false).
    { apply Z.eqb_neq. specialize (Hv k0 v0). rewrite E in Hv.
      specialize (Hv (or_introl eq_refl)). lia. }
    rewrite Hv0. split; [split; discriminate|]. split; [|discriminate].
    intros k v r [= <- <- <-]. split; [reflexivity|]. simpl.
    destruct (String.eqb (storedKey key protocol) k0); simpl.
    + now rewrite Hnz.
    + now rewrite Hv0.
Qed.

Lemma getFirstBinding_first_inserted_witness :
  BoundPorts.getFirstBinding
    (BoundPorts.setBinding (KeyNumber 9090) 46000 None
       (BoundPorts.setBinding (KeyString "8080/TCP") 45000 None BoundPorts.new))
  = Ok 45000.
Proof.
  pose (this := BoundPorts.setBinding (KeyString "8080/TCP") 45000 None BoundPorts.new).
  assert (Hv : validPorts this) by (intros k v [[= <- <-]|[]]; lia).
  assert (Hval : 1 <= 46000 <= 65535) by lia.
  destruct (getFirstBinding_first_inserted this (KeyNumber 9090) 46000 None Hv Hval)
    as (_ & Hfirst & _).
  exact (proj2 (Hfirst "8080/tcp" 45000 [] eq_refl)).
Defined.

Lemma built_NoDup_keys (this : BoundPorts.t) : built this -> NoDup (keys this).
Proof.
  unfold keys. induction 1 as [|key value protocol this _ IH]; simpl.
  - constructor.
  - rewrite setBinding_storedKey. now apply NoDup_set.
Qed.

(** X2.  A registry built through the class holds each key once. *)
Theorem built_unique_keys (this : BoundPorts.t) :
  built this -> NoDup (keys this).
Proof. exact (built_NoDup_keys this). Qed.

Lemma built_unique_keys_witness :
  NoDup (keys (BoundPorts.setBinding (KeyNumber 8080) 45001 (Some "TCP")
                 (BoundPorts.setBinding (KeyString "8080/tcp") 45000 None BoundPorts.new))).
Proof.
  apply built_unique_keys. apply built_set, built_set, built_new.
Defined.

(** X3.  A second [setBinding] under the same key and protocol replaces the
    first: the registry is the one the second call alone would have made,
    and the map holds the second value under the stored key. *)
Theorem setBinding_overwrites (this : BoundPorts.t) (key : PortKey) (v1 v2 : Z)
    (protocol : option string) :
  BoundPorts.setBinding key v2 protocol (BoundPorts.setBinding key v1 protocol this)
  = BoundPorts.setBinding key v2 protocol this
  /\ JsMap.get String.eqb (storedKey key protocol)
       (BoundPorts.ports
          (BoundPorts.setBinding key v2 protocol
             (BoundPorts.setBinding key v1 protocol this)))
     = Some v2.
Proof.
  assert (E : forall a b : BoundPorts.t,
            BoundPorts.ports a = BoundPorts.ports b -> a = b).
  { intros [a] [b]. simpl. now intros ->. }
  split.
  - apply E. now rewrite !setBinding_storedKey, set_set.
  - now rewrite setBinding_storedKey, get_set_eq.
Qed.

Lemma getBinding_setBinding_other (this : BoundPorts.t) (key port : PortKey) (value : Z)
    (protocol protocol' : option string) :
  validPorts this ->
  1 <= value <= 65535 ->
  ~ In (storedKey key protocol) (lookupKeys port protocol') ->
  BoundPorts.getBinding port protocol' (BoundPorts.setBinding key value protocol this)
  = BoundPorts.getBinding port protocol' this.
Proof.
  intros Hv Hval Hk.
  rewrite (getBinding_firstHit _ _ _ (validPorts_set key value protocol this Hv Hval)).
  rewrite (getBinding_firstHit _ _ _ Hv).
  now rewrite setBinding_storedKey, firstHit_set_other.
Qed.

(** X4.  [setBinding] with a port as value leaves alone every lookup that
    does not try the key it stores under. *)
Theorem setBinding_frame (this : BoundPorts.t) (key port : PortKey) (value : Z)
    (protocol protocol' : option string) :
  validPorts this ->
  1 <= value <= 65535 ->
  ~ In (storedKey key protocol) (lookupKeys port protocol') ->
  BoundPorts.getBinding port protocol' (BoundPorts.setBinding key value protocol this)
  = BoundPorts.getBinding port protocol' this.
Proof. exact (getBinding_setBinding_other this key port value protocol protocol'). Qed.

Lemma setBinding_frame_witness :
  BoundPorts.getBinding (KeyString "8080/TCP") None
    (BoundPorts.setBinding (KeyString "8080/udp") 46000 None
       (BoundPorts.mk [("8080/tcp", 45000)]))
  = Ok 45000.
Proof.
  assert (Hv : validPorts (BoundPorts.mk [("8080/tcp", 45000)]))
    by (intros k v [[= <- <-]|[]]; lia).
  assert (Hval : 1 <= 46000 <= 65535) by lia.
  rewrite (setBinding_frame (BoundPorts.mk [("8080/tcp", 45000)])
             (KeyString "8080/udp") (KeyString "8080/TCP") 46000 None None Hv Hval).
  - reflexivity.
  - intros [H|[H|[]]]; discriminate H.
Defined.

(** X5.  A string key without ["/"] is a key of its own: the port stored
    under it is found under the same string, and storing it changes no
    lookup by port number, whatever the number and the protocol. *)
Theorem bare_string_key (this : BoundPorts.t) (s : string) (value : Z)
    (protocol protocol' : option string) :
  1 <= value <= 65535 ->
  Js.includes Js.slash s = false ->
  BoundPorts.getBinding (KeyString s) protocol'
    (BoundPorts.setBinding (KeyString s) value protocol this) = Ok value
  /\ (forall n q,
        BoundPorts.getBinding (KeyNumber n) q
          (BoundPorts.setBinding (KeyString s) value protocol this)
        = BoundPorts.getBinding (KeyNumber n) q this).
Proof.
  intros Hval Hs.
  assert (Hk : storedKey (KeyString s) protocol = s).
  { unfold storedKey. now rewrite (split_without _ _ Hs). }
  assert (Hnz : (value =? 0)%Z = false) by (apply Z.eqb_neq; lia).
  split.
  - unfold BoundPorts.getBinding.
    rewrite setBinding_storedKey, Hk, get_set_eq, Hs, Bool.andb_false_r.
    now rewrite Hnz.
  - intros n q. unfold BoundPorts.getBinding.
    rewrite setBinding_storedKey, Hk, get_set_ne; [reflexivity|].
    intros H. rewrite <- H in Hs.
    change (Js.toString n ++ "/" ++ Js.toLowerCase (withDefault q))
      with (portKey n (Js.toLowerCase (withDefault q))) in Hs.
    now rewrite portKey_includes in Hs.
Qed.

Lemma bare_string_key_witness :
  BoundPorts.getBinding (KeyString "8080") None
    (BoundPorts.setBinding (KeyString "8080") 45000 (Some "udp") BoundPorts.new)
  = Ok 45000
  /\ BoundPorts.getBinding (KeyNumber 8080) (Some "udp")
       (BoundPorts.setBinding (KeyString "8080") 45000 (Some "udp") BoundPorts.new)
     = Throw (BindingNotFound "8080/udp").
Proof.
  assert (Hval : 1 <= 45000 <= 65535) by lia.
  destruct (bare_string_key BoundPorts.new "8080" 45000 (Some "udp") None Hval eq_refl)
    as [H1 H2].
  split; [exact H1|]. rewrite H2. reflexivity.
Defined.

(** ** More on the resolver *)

Lemma find_None_iff (A : Type) (f : A -> bool) (l : list A) :
  find f l = None <-> forall x, In x l -> f x = false.
Proof.
  split; [apply find_none|].
  induction l as [|x l IH]; simpl; [reflexivity|].
  intros H. rewrite (H x (or_introl eq_refl)). apply IH.
  intros y Hy. apply H. now right.
Qed.

Section MoreResolverProperties.

Variable isIP : string -> Z.

Lemma findBinding_None (f : IpFamily) (bindings : HostPortBindings) :
  findBinding isIP f bindings = None <->
  forall b, In b bindings -> isIP (hostIp b) <> familyCode f.
Proof.
  unfold findBinding. rewrite find_None_iff. split.
  - intros H b Hb. apply Z.eqb_neq. now apply H.
  - intros H b Hb. apply Z.eqb_neq. now apply H.
Qed.

Lemma resolveByFamily_Throw_iff (hostIps : list HostIp) (bindings : HostPortBindings) :
  resolveByFamily isIP hostIps bindings = Throw NoHostPortForFamily <->
  forall h, In h hostIps -> findBinding isIP (family h) bindings = None.
Proof.
  split; [|apply resolveByFamily_Throw].
  induction hostIps as [|h0 rest IH]; simpl; [intros _ h []|].
  destruct (findBinding isIP (family h0) bindings) eqn:E; [discriminate|].
  intros H h [<-|Hh]; [assumption|now apply IH].
Qed.

Lemma resolve_In (hostIps : list HostIp) (bindings : HostPortBindings) (port : Z) :
  resolveHostPortBinding isIP hostIps bindings = Ok port ->
  exists b, In b bindings /\ hostPort b = port.
Proof.
  unfold resolveHostPortBinding.
  destruct (isDualStackIp bindings) eqn:Hd.
  - destruct bindings as [|b l]; [discriminate Hd|]. simpl.
    intros [= <-]. exists b. split; [now left|reflexivity].
  - rewrite resolveByFamily_Ok. intros (i & h & b & _ & Hf & Hp & _).
    apply findBinding_first in Hf. destruct Hf as (j & Hn & _).
    exists b. split; [now apply nth_error_In in Hn|assumption].
Qed.

(** X6.  The resolver returns the host port of an entry of the binding
    list and nothing else; the only error it throws is
    [NoHostPortForFamily]; and it throws exactly when the list is not a
    dual-stack wildcard and [net.isIP] gives none of its entries a family of
    [hostIps]: always, then, for an empty list of bindings. *)
Theorem resolve_outcome (hostIps : list HostIp) (bindings : HostPortBindings) :
  (forall port,
     resolveHostPortBinding isIP hostIps bindings = Ok port ->
     exists b, In b bindings /\ hostPort b = port)
  /\ (forall e,
        resolveHostPortBinding isIP hostIps bindings = Throw e ->
        e = NoHostPortForFamily)
  /\ (resolveHostPortBinding isIP hostIps bindings = Throw NoHostPortForFamily
      <-> isDualStackIp bindings = false
          /\ forall h b, In h hostIps -> In b bindings ->
                         isIP (hostIp b) <> familyCode (family h)).
Proof.
  split; [exact (resolve_In hostIps bindings)|].
  split; [exact (resolve_Throw isIP hostIps bindings)|].
  unfold resolveHostPortBinding. destruct (isDualStackIp bindings) eqn:Hd.
  - destruct bindings as [|b l]; [discriminate Hd|]. simpl.
    split; [discriminate|]. intros [H _]. discriminate H.
  - rewrite resolveByFamily_Throw_iff. split.
    + intros H. split; [reflexivity|]. intros h b Hh.
      now apply findBinding_None, H.
    + intros [_ H] h Hh. apply findBinding_None. intros b. now apply H.
Qed.

(** X7.  Of the host IPs the resolver reads the families only: two lists
    with the same families in the same order resolve every binding list
    alike, whatever their addresses. *)
Theorem resolve_families_only (hostIps hostIps' : list HostIp)
    (bindings : HostPortBindings) :
  map family hostIps = map family hostIps' ->
  resolveHostPortBinding isIP hostIps bindings
  = resolveHostPortBinding isIP hostIps' bindings.
Proof.
  intros H. unfold resolveHostPortBinding.
  destruct (isDualStackIp bindings); [reflexivity|].
  revert hostIps' H. induction hostIps as [|h rest IH]; intros [|h' rest']; simpl;
    try discriminate; [reflexivity|].
  intros [= Hf Hrest]. rewrite Hf.
  destruct (findBinding isIP (family h') bindings); [reflexivity|now apply IH].
Qed.

End MoreResolverProperties.

Lemma resolve_families_only_witness :
  resolveHostPortBinding sampleIsIP [mkHostIp "192.168.1.5" IPv4]
    [mkBinding "::" 46000; mkBinding "0.0.0.0" 45000]
  = resolveHostPortBinding sampleIsIP [mkHostIp "127.0.0.1" IPv4]
      [mkBinding "::" 46000; mkBinding "0.0.0.0" 45000].
Proof.
  apply (resolve_families_only sampleIsIP [mkHostIp "192.168.1.5" IPv4]
           [mkHostIp "127.0.0.1" IPv4]).
  reflexivity.
Defined.

(** ** More on [filter] *)

Lemma getZ_set (V : Type) (n k : Z) (v : V) (m : JsMap.t Z V) :
  JsMap.get Z.eqb n (JsMap.set Z.eqb k v m)
  = if (k =? n)%Z then Some v else JsMap.get Z.eqb n m.
Proof.
  induction m as [|[k' v'] m IH]; simpl.
  - rewrite (Z.eqb_sym n k). reflexivity.
  - destruct (Z.eqb_spec k k') as [->|Hk]; simpl.
    + rewrite (Z.eqb_sym n k'). now destruct (k' =? n)%Z.
    + rewrite IH. destruct (Z.eqb_spec n k') as [->|_]; [|reflexivity].
      destruct (Z.eqb_spec k k'); [contradiction|reflexivity].
Qed.

Lemma find_app_first (A : Type) (f : A -> bool) (l l' : list A) :
  find f (l ++ l') = match find f l with Some x => Some x | None => find f l' end.
Proof.
  induction l as [|x l IH]; simpl; [reflexivity|]. now destruct (f x).
Qed.

(** The map of [filter] holds, for a port, the protocol declared last. *)
Lemma get_fold_declared (specs : list PortSpec) (n : Z) (acc : JsMap.t Z string) :
  JsMap.get Z.eqb n
    (fold_left (fun m s => JsMap.set Z.eqb (containerPort s) (protocol s) m) specs acc)
  = match lastDeclared specs n with
    | Some q => Some q
    | None => JsMap.get Z.eqb n acc
    end.
Proof.
  unfold lastDeclared. revert acc. induction specs as [|s specs IH]; intros acc; simpl.
  - reflexivity.
  - rewrite IH, find_app_first. simpl.
    destruct (find _ (rev specs)); simpl; [reflexivity|].
    rewrite getZ_set. now destruct (containerPort s =? n)%Z.
Qed.

Lemma get_declared (specs : list PortSpec) (n : Z) :
  JsMap.get Z.eqb n (declared specs) = lastDeclared specs n.
Proof.
  unfold declared. rewrite get_fold_declared. now destruct (lastDeclared specs n).
Qed.

Lemma portsWithProtocol_normalized (ports : list PortWithOptionalBinding)
    (specs : list PortSpec) :
  normalizedAs ports specs ->
  forall acc,
    BoundPorts.portsWithProtocol ports acc
    = Ok (fold_left (fun m s => JsMap.set Z.eqb (containerPort s) (protocol s) m)
            specs acc).
Proof.
  induction 1 as [|p s ports specs Hp _ IH]; intros acc; simpl; [reflexivity|].
  unfold getContainerPort, getProtocol. rewrite Hp. simpl. apply IH.
Qed.

Lemma portsWithProtocol_cases (ports : list PortWithOptionalBinding) :
  forall acc,
    (exists specs, normalizedAs ports specs)
    \/ (exists p e, In p ports /\ normalize p = Throw e
                    /\ BoundPorts.portsWithProtocol ports acc = Throw e).
Proof.
  induction ports as [|p ports IH]; intros acc.
  - left. exists []. constructor.
  - destruct (normalize p) as [s|e] eqn:Hp.
    + destruct (IH (JsMap.set Z.eqb (containerPort s) (protocol s) acc))
        as [[specs Hs]|(p' & e & Hin & Hn & Ht)].
      * left. exists (s :: specs). now constructor.
      * right. exists p', e. repeat split; [now right|assumption|].
        simpl. unfold getContainerPort, getProtocol. rewrite Hp. simpl. exact Ht.
    + right. exists p, e. repeat split; [now left|assumption|].
      simpl. unfold getContainerPort. rewrite Hp. reflexivity.
Qed.

Lemma filter_normalized (ports : list PortWithOptionalBinding) (specs : list PortSpec)
    (this : BoundPorts.t) :
  normalizedAs ports specs ->
  BoundPorts.filter ports this
  = Ok (filterLoop (declared specs) (BoundPorts.ports this) BoundPorts.new).
Proof.
  intros H. unfold BoundPorts.filter.
  rewrite (portsWithProtocol_normalized _ _ H). reflexivity.
Qed.

Lemma filterLoop_sound (m : JsMap.t Z string) (entries : list (string * Z)) :
  forall acc,
    (built acc -> built (filterLoop m entries acc))
    /\ forall k v,
         In (k, v) (BoundPorts.ports (filterLoop m entries acc)) ->
         In (k, v) (BoundPorts.ports acc)
         \/ exists k0, In (k0, v) entries
                       /\ BoundPorts.retained m k0 = true
                       /\ storedKey (KeyString k0) None = k.
Proof.
  induction entries as [|[k0 v0] entries IH]; intros acc; simpl.
  - split; [auto|]. intros k v H. now left.
  - destruct (BoundPorts.retained m k0) eqn:Hr.
    + destruct (IH (BoundPorts.setBinding (KeyString k0) v0 None acc)) as [Hb Hin].
      split.
      * intros Hacc. apply Hb. now constructor.
      * intros k v H. apply Hin in H. rewrite setBinding_storedKey in H.
        destruct H as [H|(k1 & H1 & Hr1 & Hk1)].
        -- apply In_set in H. destruct H as [[-> ->]|H]; [|now left].
           right. exists k0. repeat split; [now left|assumption].
        -- right. exists k1. repeat split; [now right|assumption|assumption].
    + destruct (IH acc) as [Hb Hin]. split; [assumption|].
      intros k v H. apply Hin in H. destruct H as [H|(k1 & H1 & Hr1 & Hk1)];
        [now left|].
      right. exists k1. repeat split; [now right|assumption|assumption].
Qed.

(** X8.  [filter] makes no binding up: the registry it returns is built by
    [setBinding] calls from an empty one, and each of its entries has the
    value of an entry of the original that passed the test of [filter],
    under the key [setBinding] stores that entry's key under; its values
    are ports when those of the original are.  [filter] throws only what
    the normalization of one of the declarations throws. *)
Theorem filter_sound (ports : list PortWithOptionalBinding) (this : BoundPorts.t) :
  (forall reg,
     BoundPorts.filter ports this = Ok reg ->
     built reg
     /\ (forall k v,
           In (k, v) (BoundPorts.ports reg) ->
           exists k0, In (k0, v) (BoundPorts.ports this)
                      /\ storedKey (KeyString k0) None = k)
     /\ (validPorts this -> validPorts reg))
  /\ (forall e,
        BoundPorts.filter ports this = Throw e ->
        exists p, In p ports /\ normalize p = Throw e).
Proof.
  destruct (portsWithProtocol_cases ports (JsMap.empty Z string))
    as [[specs Hs]|(p & e & Hin & Hn & Ht)].
  - rewrite (filter_normalized _ _ this Hs). split; [|discriminate].
    intros reg [= <-].
    destruct (filterLoop_sound (declared specs) (BoundPorts.ports this) BoundPorts.new)
      as [Hb Hin].
    assert (Hfrom : forall k v,
              In (k, v) (BoundPorts.ports
                           (filterLoop (declared specs) (BoundPorts.ports this)
                              BoundPorts.new)) ->
              exists k0, In (k0, v) (BoundPorts.ports this)
                         /\ storedKey (KeyString k0) None = k).
    { intros k v H. apply Hin in H. destruct H as [[]|(k0 & H0 & _ & Hk)].
      now exists k0. }
    split; [exact (Hb built_new)|]. split; [exact Hfrom|].
    intros Hv k v H. destruct (Hfrom k v H) as (k0 & H0 & _). now apply (Hv k0 v).
  - unfold BoundPorts.filter. rewrite Ht. simpl. split; [discriminate|].
    intros e' [= <-]. now exists p.
Qed.

Lemma filterLoop_cons (m : JsMap.t Z string) (k0 : string) (v0 : Z)
    (entries : list (string * Z)) (acc : BoundPorts.t) :
  filterLoop m ((k0, v0) :: entries) acc
  = filterLoop m entries
      (if BoundPorts.retained m k0
       then BoundPorts.setBinding (KeyString k0) v0 None acc else acc).
Proof. reflexivity. Qed.

Lemma filterLoop_stable (m : JsMap.t Z string) (entries : list (string * Z)) :
  forall acc,
    NoDup (map fst entries) ->
    (forall k, In k (map fst entries) -> stableKey k) ->
    (forall k, In k (map fst entries) -> ~ In k (keys acc)) ->
    BoundPorts.ports (filterLoop m entries acc)
    = (BoundPorts.ports acc
       ++ List.filter (fun e => BoundPorts.retained m (fst e)) entries)%list.
Proof.
  induction entries as [|[k0 v0] entries IH]; intros acc Hnd Hst Hfresh.
  - simpl. now rewrite app_nil_r.
  - rewrite filterLoop_cons. cbn [List.filter fst map] in *.
    inversion Hnd as [|? ? Hk0 Hnd']; subst.
    assert (Hst' : forall k, In k (map fst entries) -> stableKey k)
      by (intros k Hk; apply Hst; now right).
    destruct (BoundPorts.retained m k0) eqn:Hr.
    + rewrite IH; try assumption.
      * rewrite setBinding_storedKey, (Hst k0 (or_introl eq_refl)).
        rewrite set_fresh by (apply Hfresh; now left).
        now rewrite <- app_assoc.
      * intros k Hk. unfold keys.
        rewrite setBinding_storedKey, (Hst k0 (or_introl eq_refl)).
        rewrite set_fresh by (apply Hfresh; now left).
        rewrite map_app, in_app_iff. simpl. intros [H|[<-|[]]].
        -- apply (Hfresh k); [now right|assumption].
        -- contradiction.
    + apply IH; try assumption. intros k Hk. apply Hfresh. now right.
Qed.

Lemma filter_stable (ports : list PortWithOptionalBinding) (specs : list PortSpec)
    (this : BoundPorts.t) :
  NoDup (keys this) ->
  (forall k, In k (keys this) -> stableKey k) ->
  normalizedAs ports specs ->
  BoundPorts.filter ports this
  = Ok (BoundPorts.mk
          (List.filter (fun e => BoundPorts.retained (declared specs) (fst e))
             (BoundPorts.ports this))).
Proof.
  intros Hnd Hst Hs. rewrite (filter_normalized _ _ this Hs). f_equal.
  pose proof (filterLoop_stable (declared specs) (BoundPorts.ports this) BoundPorts.new
                Hnd Hst (fun k _ H => H)) as E.
  destruct (filterLoop _ _ _) as [m]. simpl in E. now rewrite E.
Qed.

(** X9.  On a registry whose keys are unique and stored under themselves,
    [filter] with valid declarations returns the entries that pass its
    test, each with its key and value, in the order of the original. *)
Theorem filter_sublist (ports : list PortWithOptionalBinding) (specs : list PortSpec)
    (this : BoundPorts.t) :
  NoDup (keys this) ->
  (forall k, In k (keys this) -> stableKey k) ->
  normalizedAs ports specs ->
  BoundPorts.filter ports this
  = Ok (BoundPorts.mk
          (List.filter (fun e => BoundPorts.retained (declared specs) (fst e))
             (BoundPorts.ports this))).
Proof. exact (filter_stable ports specs this). Qed.

Lemma get_filter_keys (V : Type) (f : string -> bool) (k : string)
    (m : JsMap.t string V) :
  JsMap.get String.eqb k (List.filter (fun e => f (fst e)) m)
  = if f k then JsMap.get String.eqb k m else None.
Proof.
  induction m as [|[k' v'] m IH]; simpl; [now destruct (f k)|].
  destruct (String.eqb_spec k k') as [->|Hne].
  - destruct (f k') eqn:Hf; simpl; [now rewrite String.eqb_refl|].
    now rewrite IH.
  - destruct (f k'); simpl; [|assumption].
    destruct (String.eqb_spec k k'); [contradiction|assumption].
Qed.

(** The test of [filter] on a key [port/protocol]. *)
Lemma retained_portKey (m : JsMap.t Z string) (n : Z) (p : string) :
  Js.includes Js.slash p = false ->
  BoundPorts.retained m (portKey n p) = true <->
  exists q, JsMap.get Z.eqb n m = Some q /\ Js.toLowerCase q = Js.toLowerCase p.
Proof.
  intros Hp. unfold BoundPorts.retained. rewrite (portKey_split _ _ Hp). simpl.
  rewrite parseInt_toString. unfold JsMap.has.
  destruct (JsMap.get Z.eqb n m) as [q|]; simpl.
  - split.
    + intros H. exists q. split; [reflexivity|]. now apply String.eqb_eq.
    + intros (q' & [= <-] & H). now apply String.eqb_eq.
  - split; [discriminate|]. intros (q & H & _). discriminate H.
Qed.

Lemma filter_get (ports : list PortWithOptionalBinding) (specs : list PortSpec)
    (this : BoundPorts.t) :
  NoDup (keys this) ->
  (forall k, In k (keys this) -> stableKey k) ->
  normalizedAs ports specs ->
  exists reg,
    BoundPorts.filter ports this = Ok reg
    /\ forall n p v,
         Js.includes Js.slash p = false ->
         (JsMap.get String.eqb (portKey n p) (BoundPorts.ports reg) = Some v
          <-> JsMap.get String.eqb (portKey n p) (BoundPorts.ports this) = Some v
              /\ exists q, lastDeclared specs n = Some q
                           /\ Js.toLowerCase q = Js.toLowerCase p).
Proof.
  intros Hnd Hst Hs. eexists. split; [exact (filter_stable _ _ _ Hnd Hst Hs)|].
  intros n p v Hp. simpl.
  rewrite (get_filter_keys Z (BoundPorts.retained (declared specs))).
  rewrite <- (get_declared specs n).
  destruct (BoundPorts.retained (declared specs) (portKey n p)) eqn:Hr.
  - apply (retained_portKey _ _ _ Hp) in Hr. split; [now split|now intros [H _]].
  - split; [discriminate|]. intros [_ H].
    apply (retained_portKey _ _ _ Hp) in H. congruence.
Qed.

(** X10.  When a container port is declared more than once, the last
    declaration decides: on a registry whose keys are unique and stored
    under themselves, the entry [port/protocol] is in the filtered registry
    if and only if it is in the original and the last declaration with that
    port has that protocol, up to case. *)
Theorem filter_last_declaration (ports : list PortWithOptionalBinding)
    (specs : list PortSpec) (this : BoundPorts.t) :
  NoDup (keys this) ->
  (forall k, In k (keys this) -> stableKey k) ->
  normalizedAs ports specs ->
  exists reg,
    BoundPorts.filter ports this = Ok reg
    /\ forall n p v,
         Js.includes Js.slash p = false ->
         (JsMap.get String.eqb (portKey n p) (BoundPorts.ports reg) = Some v
          <-> JsMap.get String.eqb (portKey n p) (BoundPorts.ports this) = Some v
              /\ exists q, lastDeclared specs n = Some q
                           /\ Js.toLowerCase q = Js.toLowerCase p).
Proof. exact (filter_get ports specs this). Qed.

Lemma NoDup_map_inj (A B : Type) (f : A -> B) (l : list A) (x y : A) :
  NoDup (map f l) -> In x l -> In y l -> f x = f y -> x = y.
Proof.
  induction l as [|a l IH]; simpl; [intros _ []|].
  intros Hnd Hx Hy E. inversion Hnd as [|? ? Ha Hnd']; subst.
  destruct Hx as [->|Hx], Hy as [->|Hy]; auto.
  - destruct Ha. rewrite E. now apply in_map.
  - destruct Ha. rewrite <- E. now apply in_map.
Qed.

Lemma lastDeclared_distinct (specs : list PortSpec) (n : Z) (q : string) :
  NoDup (map containerPort specs) ->
  lastDeclared specs n = Some q <-> In (mkPortSpec n q) specs.
Proof.
  intros Hnd. unfold lastDeclared. split.
  - destruct (find _ (rev specs)) as [s|] eqn:Hf; [|discriminate].
    intros [= <-]. apply find_some in Hf. destruct Hf as [Hin Hn].
    apply Z.eqb_eq in Hn. subst n. apply in_rev in Hin. now destruct s.
  - intros Hin. destruct (find _ (rev specs)) as [s|] eqn:Hf.
    + apply find_some in Hf. destruct Hf as [Hs Hn]. apply Z.eqb_eq in Hn.
      apply in_rev in Hs.
      now rewrite (NoDup_map_inj _ _ containerPort specs s (mkPortSpec n q) Hnd Hs Hin Hn).
    + apply find_None_iff with (x := mkPortSpec n q) in Hf.
      * simpl in Hf. now rewrite Z.eqb_refl in Hf.
      * now apply in_rev in Hin.
Qed.

(** X11.  When the declarations have pairwise distinct container ports,
    [filter] keeps exactly what they name: on a registry whose keys are
    unique and stored under themselves, the entry [port/protocol] is in the
    filtered registry if and only if it is in the original and some
    declaration has that port and, up to case, that protocol. *)
Theorem filter_exact_distinct_ports (ports : list PortWithOptionalBinding)
    (specs : list PortSpec) (this : BoundPorts.t) :
  NoDup (keys this) ->
  (forall k, In k (keys this) -> stableKey k) ->
  normalizedAs ports specs ->
  NoDup (map containerPort specs) ->
  exists reg,
    BoundPorts.filter ports this = Ok reg
    /\ forall n p v,
         Js.includes Js.slash p = false ->
         (JsMap.get String.eqb (portKey n p) (BoundPorts.ports reg) = Some v
          <-> JsMap.get String.eqb (portKey n p) (BoundPorts.ports this) = Some v
              /\ exists q, In (mkPortSpec n q) specs
                           /\ Js.toLowerCase q = Js.toLowerCase p).
Proof.
  intros Hnd Hst Hs Hdist.
  destruct (filter_get ports specs this Hnd Hst Hs) as (reg & Hreg & Hget).
  exists reg. split; [assumption|]. intros n p v Hp. rewrite (Hget n p v Hp).
  split; intros [Hg (q & Hq & Hl)]; (split; [assumption|]); exists q;
    (split; [|assumption]); now apply (lastDeclared_distinct specs n q Hdist).
Qed.

Lemma filter_sublist_witness :
  BoundPorts.filter [PortNumber 8080]
    (BoundPorts.mk [("8080/tcp", 45000); ("9090/udp", 46000)])
  = Ok (BoundPorts.mk [("8080/tcp", 45000)]).
Proof.
  apply (filter_sublist [PortNumber 8080] [mkPortSpec 8080 "tcp"]
           (BoundPorts.mk [("8080/tcp", 45000); ("9090/udp", 46000)])).
  - repeat constructor; simpl; intuition discriminate.
  - intros k [<-|[<-|[]]]; reflexivity.
  - repeat constructor.
Defined.

Lemma filter_last_declaration_witness :
  exists reg,
    BoundPorts.filter [PortNumber 8080; PortString "8080/udp"]
      (BoundPorts.mk [("8080/tcp", 45000); ("8080/udp", 46000)]) = Ok reg
    /\ JsMap.get String.eqb "8080/udp" (BoundPorts.ports reg) = Some 46000
    /\ JsMap.get String.eqb "8080/tcp" (BoundPorts.ports reg) = None.
Proof.
  pose (this := BoundPorts.mk [("8080/tcp", 45000); ("8080/udp", 46000)]).
  assert (Hnd : NoDup (keys this))
    by (repeat constructor; simpl; intuition discriminate).
  assert (Hst : forall k, In k (keys this) -> stableKey k)
    by (intros k [<-|[<-|[]]]; reflexivity).
  assert (Hs : normalizedAs [PortNumber 8080; PortString "8080/udp"]
                 [mkPortSpec 8080 "tcp"; mkPortSpec 8080 "udp"])
    by (repeat constructor).
  destruct (filter_last_declaration _ _ this Hnd Hst Hs) as (reg & Hreg & Hget).
  exists reg. split; [exact Hreg|]. split.
  - apply (proj2 (Hget 8080 "udp" 46000 eq_refl)). split; [reflexivity|].
    exists "udp". split; reflexivity.
  - destruct (JsMap.get String.eqb "8080/tcp" (BoundPorts.ports reg)) as [v|] eqn:E;
      [|reflexivity].
    apply (proj1 (Hget 8080 "tcp" v eq_refl)) in E.
    destruct E as (_ & q & [= <-] & Hq). discriminate Hq.
Defined.

Lemma filter_exact_distinct_ports_witness :
  exists reg,
    BoundPorts.filter [PortNumber 8080; PortString "9090/udp"]
      (BoundPorts.mk [("8080/tcp", 45000); ("9090/udp", 46000); ("7070/tcp", 47000)])
    = Ok reg
    /\ JsMap.get String.eqb "9090/udp" (BoundPorts.ports reg) = Some 46000.
Proof.
  pose (this := BoundPorts.mk
                  [("8080/tcp", 45000); ("9090/udp", 46000); ("7070/tcp", 47000)]).
  assert (Hnd : NoDup (keys this))
    by (repeat constructor; simpl; intuition discriminate).
  assert (Hst : forall k, In k (keys this) -> stableKey k)
    by (intros k [<-|[<-|[<-|[]]]]; reflexivity).
  assert (Hs : normalizedAs [PortNumber 8080; PortString "9090/udp"]
                 [mkPortSpec 8080 "tcp"; mkPortSpec 9090 "udp"])
    by (repeat constructor).
  assert (Hd : NoDup (map containerPort [mkPortSpec 8080 "tcp"; mkPortSpec 9090 "udp"]))
    by (repeat constructor; simpl; intuition discriminate).
  destruct (filter_exact_distinct_ports _ _ this Hnd Hst Hs Hd) as (reg & Hreg & Hget).
  exists reg. split; [exact Hreg|].
  apply (proj2 (Hget 9090 "udp" 46000 eq_refl)). split; [reflexivity|].
  exists "udp". split; [|reflexivity]. right. left. reflexivity.
Defined.

(** ** More on [fromInspectResult] *)

(** The segments of [split] hold no separator. *)
Lemma split_segments (sep : ascii) (s : string) :
  forall seg, In seg (Js.split sep s) -> Js.includes sep seg = false.
Proof.
  induction s as [|c s IH]; simpl.
  - intros seg [<-|[]]. reflexivity.
  - destruct (Ascii.eqb c sep) eqn:E.
    + intros seg [<-|H]; [reflexivity|now apply IH].
    + destruct (Js.split sep s) as [|x rest].
      * intros seg [<-|[]]. simpl. now rewrite E.
      * intros seg [<-|H].
        -- simpl. rewrite E. apply IH. now left.
        -- apply IH. now right.
Qed.

(** A key stored for a string key is stored under itself. *)
Lemma stableKey_storedKey (g : string) (protocol : option string) :
  stableKey (storedKey (KeyString g) protocol).
Proof.
  unfold stableKey. destruct (Js.includes Js.slash g) eqn:Hg.
  - destruct (split_includes _ _ Hg) as (a & b & rest & E & Ha).
    assert (Hb : Js.includes Js.slash b = false).
    { apply (split_segments Js.slash g). rewrite E. right. now left. }
    assert (Ek : storedKey (KeyString g) protocol = a ++ "/" ++ Js.toLowerCase b)
      by (unfold storedKey; now rewrite E).
    rewrite Ek, (storedKey_string a (Js.toLowerCase b) None Ha).
    rewrite split_without by now rewrite includes_toLowerCase.
    cbn [hd]. now rewrite toLowerCase_idem.
  - unfold storedKey. now rewrite !(split_without _ _ Hg).
Qed.

(** The keys a string lookup tries: the string, then its stored key. *)
Lemma lookupKeys_string (g : string) (protocol : option string) :
  lookupKeys (KeyString g) protocol = [g; storedKey (KeyString g) None]
  \/ (lookupKeys (KeyString g) protocol = [g] /\ storedKey (KeyString g) None = g).
Proof.
  unfold lookupKeys, storedKey. destruct (Js.includes Js.slash g) eqn:Hg.
  - left. destruct (split_includes _ _ Hg) as (a & b & rest & -> & _). reflexivity.
  - right. now rewrite (split_without _ _ Hg).
Qed.

(** Lookup by string in a registry of stable keys that has the stored key. *)
Lemma getBinding_stored (this : BoundPorts.t) (g : string) (v : Z)
    (protocol : option string) :
  validPorts this ->
  (forall k, In k (keys this) -> stableKey k) ->
  JsMap.get String.eqb (storedKey (KeyString g) None) (BoundPorts.ports this) = Some v ->
  BoundPorts.getBinding (KeyString g) protocol this = Ok v.
Proof.
  intros Hv Hst Hget. rewrite (getBinding_firstHit _ _ _ Hv).
  destruct (lookupKeys_string g protocol) as [->|[-> E]]; cbn [firstHit hd].
  - destruct (JsMap.get String.eqb g (BoundPorts.ports this)) as [w|] eqn:Hg.
    + assert (Hk : In g (keys this)).
      { apply get_In in Hg. now apply (in_map fst) in Hg. }
      apply Hst in Hk. unfold stableKey in Hk. rewrite Hk, Hg in Hget. congruence.
    + now rewrite Hget.
  - rewrite E in Hget. now rewrite Hget.
Qed.

Lemma getBinding_number_stored (this : BoundPorts.t) (n v : Z) (p : string) :
  validPorts this ->
  Js.includes Js.slash p = false ->
  JsMap.get String.eqb (storedKey (KeyString (portKey n p)) None) (BoundPorts.ports this)
  = Some v ->
  BoundPorts.getBinding (KeyNumber n) (Some p) this = Ok v.
Proof.
  intros Hv Hp Hget. rewrite (getBinding_firstHit _ _ _ Hv).
  rewrite (storedKey_portKey _ _ _ Hp) in Hget.
  unfold lookupKeys. cbn [withDefault firstHit hd].
  change (Js.toString n ++ "/" ++ Js.toLowerCase p) with (portKey n (Js.toLowerCase p)).
  now rewrite Hget.
Qed.

Section MoreFromInspectResultProperties.

Variable isIP : string -> Z.

Lemma insertResolved_cons (hostIps : list HostIp) (g : string) (bs : HostPortBindings)
    (rest : list (string * HostPortBindings)) (acc : BoundPorts.t) :
  BoundPorts.insertResolved isIP hostIps ((g, bs) :: rest) acc
  = (hostPort <- resolveHostPortBinding isIP hostIps bs ;;
     BoundPorts.insertResolved isIP hostIps rest
       (BoundPorts.setBinding (KeyString g) hostPort None acc)).
Proof. reflexivity. Qed.

(** What [fromInspectResult] keeps while it runs over the groups. *)
Lemma insertResolved_invariants (hostIps : list HostIp)
    (entries : list (string * HostPortBindings)) :
  forall acc reg,
    BoundPorts.insertResolved isIP hostIps entries acc = Ok reg ->
    (built acc -> built reg)
    /\ (validHostPorts entries -> validPorts acc -> validPorts reg)
    /\ ((forall k, In k (keys acc) -> stableKey k) ->
        forall k, In k (keys reg) -> stableKey k)
    /\ (forall k, ~ In k (storedKeys entries) ->
                  JsMap.get String.eqb k (BoundPorts.ports reg)
                  = JsMap.get String.eqb k (BoundPorts.ports acc))
    /\ (forall k0 v0 m,
          BoundPorts.ports acc = (k0, v0) :: m ->
          exists v' m', BoundPorts.ports reg = (k0, v') :: m').
Proof.
  induction entries as [|[g bs] rest IH]; intros acc reg.
  - intros [= <-]. split; [|split; [|split; [|split]]]; auto.
    intros k0 v0 m E. now exists v0, m.
  - rewrite insertResolved_cons.
    destruct (resolveHostPortBinding isIP hostIps bs) as [port|e] eqn:Hr;
      cbn [bind]; [|discriminate].
    intros H. destruct (IH _ _ H) as (Hb & Hv & Hs & Hg & Hh).
    split; [|split; [|split; [|split]]].
    + intros Hacc. apply Hb. now constructor.
    + intros Hhp Hacc. apply Hv.
      * intros g' bs' b Hin. apply (Hhp g' bs' b). now right.
      * apply validPorts_set; [assumption|].
        destruct (resolve_In isIP hostIps bs port Hr) as (b & Hb' & <-).
        apply (Hhp g bs b); [now left|assumption].
    + intros Hacc. apply Hs. intros k. unfold keys.
      rewrite setBinding_storedKey, keys_set.
      destruct (JsMap.has String.eqb _ _); [apply Hacc|].
      rewrite in_app_iff. intros [Hk|[<-|[]]]; [now apply Hacc|].
      apply stableKey_storedKey.
    + intros k Hk. rewrite Hg, setBinding_storedKey.
      * apply get_set_ne. intros ->. apply Hk. now left.
      * intros Hin. apply Hk. now right.
    + intros k0 v0 m E.
      assert (Hhead : exists v1 m1,
                BoundPorts.ports (BoundPorts.setBinding (KeyString g) port None acc)
                = (k0, v1) :: m1).
      { rewrite setBinding_storedKey, E. cbn [JsMap.set].
        destruct (String.eqb_spec (storedKey (KeyString g) None) k0) as [->|_];
          eauto. }
      destruct Hhead as (v1 & m1 & E1). exact (Hh k0 v1 m1 E1).
Qed.

(** Under distinct stored keys each group's port is under its stored key. *)
Lemma insertResolved_get (hostIps : list HostIp)
    (entries : list (string * HostPortBindings)) :
  forall acc reg,
    BoundPorts.insertResolved isIP hostIps entries acc = Ok reg ->
    NoDup (storedKeys entries) ->
    forall g bs,
      In (g, bs) entries ->
      exists port,
        resolveHostPortBinding isIP hostIps bs = Ok port
        /\ JsMap.get String.eqb (storedKey (KeyString g) None) (BoundPorts.ports reg)
           = Some port.
Proof.
  induction entries as [|[g0 bs0] rest IH]; intros acc reg; [intros _ _ g bs []|].
  rewrite insertResolved_cons.
  destruct (resolveHostPortBinding isIP hostIps bs0) as [port|e] eqn:Hr;
    cbn [bind]; [|discriminate].
  intros H Hnd g bs Hin.
  change (NoDup (storedKey (KeyString g0) None :: storedKeys rest)) in Hnd.
  inversion Hnd as [|? ? Hk Hnd']; subst.
  destruct Hin as [[= <- <-]|Hin].
  - exists port. split; [assumption|].
    destruct (insertResolved_invariants _ _ _ _ H) as (_ & _ & _ & Hg & _).
    rewrite (Hg (storedKey (KeyString g0) None) Hk), setBinding_storedKey.
    apply get_set_eq.
  - now apply (IH _ _ H Hnd' g bs).
Qed.

(** X12.  What [fromInspectResult] stores can be looked up again: when it
    returns a registry for a snapshot whose groups are stored under
    distinct keys and whose host ports are in [1, 65535], [getBinding] with
    the key of a group returns the port the resolver gives for the bindings
    of that group, and so does [getBinding] with the port number and the
    protocol when the key is [port/protocol]. *)
Theorem fromInspectResult_lookup (hostIps : list HostIp)
    (inspectResult : InspectResult.t) (reg : BoundPorts.t) :
  BoundPorts.fromInspectResult isIP hostIps inspectResult = Ok reg ->
  validHostPorts (InspectResult.ports inspectResult) ->
  NoDup (storedKeys (InspectResult.ports inspectResult)) ->
  forall g bs,
    In (g, bs) (InspectResult.ports inspectResult) ->
    exists port,
      resolveHostPortBinding isIP hostIps bs = Ok port
      /\ (forall q, BoundPorts.getBinding (KeyString g) q reg = Ok port)
      /\ (forall n p, g = portKey n p -> Js.includes Js.slash p = false ->
                      BoundPorts.getBinding (KeyNumber n) (Some p) reg = Ok port).
Proof.
  unfold BoundPorts.fromInspectResult. intros H Hhp Hnd g bs Hin.
  destruct (insertResolved_invariants _ _ _ _ H) as (_ & Hv & Hs & _).
  assert (Hvalid : validPorts reg) by (apply Hv; [assumption|intros k v []]).
  assert (Hstable : forall k, In k (keys reg) -> stableKey k)
    by (apply Hs; intros k []).
  destruct (insertResolved_get _ _ _ _ H Hnd g bs Hin) as (port & Hr & Hg).
  exists port. split; [assumption|]. split.
  - intros q. now apply getBinding_stored.
  - intros n p -> Hp. now apply getBinding_number_stored.
Qed.

(** X13.  [getFirstBinding] on the registry of [fromInspectResult] is the
    port resolved for the first group of the snapshot, when the groups are
    stored under distinct keys and the host ports are in [1, 65535]. *)
Theorem fromInspectResult_first (hostIps : list HostIp) (g0 : string)
    (bs0 : HostPortBindings) (rest : list (string * HostPortBindings))
    (reg : BoundPorts.t) :
  BoundPorts.fromInspectResult isIP hostIps (InspectResult.mk ((g0, bs0) :: rest))
  = Ok reg ->
  validHostPorts ((g0, bs0) :: rest) ->
  NoDup (storedKeys ((g0, bs0) :: rest)) ->
  BoundPorts.getFirstBinding reg = resolveHostPortBinding isIP hostIps bs0.
Proof.
  unfold BoundPorts.fromInspectResult. simpl InspectResult.ports.
  intros H Hhp Hnd.
  destruct (insertResolved_get _ _ _ _ H Hnd g0 bs0 (or_introl eq_refl))
    as (port & Hr & Hg).
  rewrite Hr. rewrite insertResolved_cons, Hr in H. cbn [bind] in H.
  destruct (insertResolved_invariants _ _ _ _ H) as (_ & _ & _ & _ & Hh).
  destruct (Hh (storedKey (KeyString g0) None) port []) as (v' & m' & E).
  { now rewrite setBinding_storedKey. }
  rewrite E in Hg. simpl in Hg. rewrite String.eqb_refl in Hg. injection Hg as ->.
  unfold BoundPorts.getFirstBinding. rewrite E.
  destruct (resolve_In isIP hostIps bs0 port Hr) as (b & Hb & <-).
  specialize (Hhp g0 bs0 b (or_introl eq_refl) Hb).
  destruct (Z.eqb_spec (hostPort b) 0); [lia|reflexivity].
Qed.

End MoreFromInspectResultProperties.

Lemma fromInspectResult_lookup_witness :
  let snapshot :=
    InspectResult.mk
      [("8080/tcp", [mkBinding "0.0.0.0" 45000; mkBinding "::" 45001]);
       ("9090/UDP", [mkBinding "" 46000])] in
  exists reg,
    BoundPorts.fromInspectResult sampleIsIP [mkHostIp "127.0.0.1" IPv4] snapshot = Ok reg
    /\ BoundPorts.getBinding (KeyString "9090/UDP") None reg = Ok 46000
    /\ BoundPorts.getBinding (KeyNumber 8080) (Some "tcp") reg = Ok 45000.
Proof.
  intros snapshot.
  pose (reg := BoundPorts.mk [("8080/tcp", 45000); ("9090/udp", 46000)]).
  assert (H : BoundPorts.fromInspectResult sampleIsIP [mkHostIp "127.0.0.1" IPv4] snapshot
              = Ok reg) by reflexivity.
  assert (Hhp : validHostPorts (InspectResult.ports snapshot)).
  { intros g bs b [[= <- <-]|[[= <- <-]|[]]] Hb; simpl in Hb;
      repeat (destruct Hb as [<-|Hb]; [simpl; lia|]); destruct Hb. }
  assert (Hnd : NoDup (storedKeys (InspectResult.ports snapshot)))
    by (repeat constructor; simpl; intuition discriminate).
  exists reg. split; [exact H|]. split.
  - destruct (fromInspectResult_lookup sampleIsIP _ snapshot reg H Hhp Hnd
                "9090/UDP" [mkBinding "" 46000]) as (port & Hr & Hs & _).
    + right. left. reflexivity.
    + injection Hr as <-. exact (Hs None).
  - destruct (fromInspectResult_lookup sampleIsIP _ snapshot reg H Hhp Hnd
                "8080/tcp" [mkBinding "0.0.0.0" 45000; mkBinding "::" 45001])
      as (port & Hr & _ & Hn).
    + left. reflexivity.
    + injection Hr as <-. exact (Hn 8080 "tcp" eq_refl eq_refl).
Defined.

Lemma fromInspectResult_first_witness :
  BoundPorts.getFirstBinding (BoundPorts.mk [("9090/udp", 46000); ("8080/tcp", 45000)])
  = Ok 46000.
Proof.
  pose (entries := [("9090/UDP", [mkBinding "" 46000]);
                    ("8080/tcp", [mkBinding "0.0.0.0" 45000])]).
  assert (Hhp : validHostPorts entries).
  { intros g bs b [[= <- <-]|[[= <- <-]|[]]] Hb; simpl in Hb;
      repeat (destruct Hb as [<-|Hb]; [simpl; lia|]); destruct Hb. }
  assert (Hnd : NoDup (storedKeys entries))
    by (repeat constructor; simpl; intuition discriminate).
  exact (fromInspectResult_first sampleIsIP [mkHostIp "127.0.0.1" IPv4]
           "9090/UDP" [mkBinding "" 46000] [("8080/tcp", [mkBinding "0.0.0.0" 45000])]
           (BoundPorts.mk [("9090/udp", 46000); ("8080/tcp", 45000)])
           eq_refl Hhp Hnd).
Defined.

(** ** From the poller to the registry *)

Lemma Forall2_In_r (A B : Type) (R : A -> B -> Prop) (l : list A) (l' : list B) (y : B) :
  Forall2 R l l' -> In y l' -> exists x, In x l /\ R x y.
Proof.
  induction 1 as [|a b l l' Hab _ IH]; simpl; [intros []|].
  intros [<-|Hy].
  - exists a. split; [now left|assumption].
  - destruct (IH Hy) as (x & Hx & Hr). exists x. split; [now right|assumption].
Qed.

Section PipelineProperties.

Variable isIP : string -> Z.
Variable ContainerInspectInfo : Type.

(** A wanted port that a snapshot exposes has a port in the registry made
    from that snapshot, under the key its own key is stored under. *)
Lemma exposed_stored (hostIps : list HostIp) (wanted : list PortWithOptionalBinding)
    (r : Result ContainerInspectInfo) (reg : BoundPorts.t) :
  allPortsExposed wanted r = Ok true ->
  BoundPorts.fromInspectResult isIP hostIps (mappedInspectResult r) = Ok reg ->
  validHostPorts (InspectResult.ports (mappedInspectResult r)) ->
  validPorts reg
  /\ (forall k, In k (keys reg) -> stableKey k)
  /\ built reg
  /\ forall p,
       In p wanted ->
       exists spec v,
         normalize p = Ok spec
         /\ JsMap.get String.eqb
              (storedKey (KeyString (portKey (containerPort spec) (protocol spec))) None)
              (BoundPorts.ports reg) = Some v.
Proof.
  unfold BoundPorts.fromInspectResult, allPortsExposed. intros Hall H Hhp.
  destruct (insertResolved_invariants isIP _ _ _ _ H) as (Hb & Hv & Hs & _).
  split; [apply Hv; [assumption|intros k v []]|].
  split; [apply Hs; intros k []|]. split; [exact (Hb built_new)|].
  intros p Hp. apply every_true in Hall. rewrite Forall_forall in Hall.
  apply Hall, portExposed_true in Hp.
  destruct Hp as (spec & bindings & Hn & Hg & _). apply get_In in Hg.
  destruct (insertResolved_Ok isIP _ _ _ _ H) as [_ Hkeys].
  pose (k := storedKey (KeyString (portKey (containerPort spec) (protocol spec))) None).
  assert (Hhas : JsMap.has String.eqb k (BoundPorts.ports reg) = true).
  { apply Hkeys. right. now exists (portKey (containerPort spec) (protocol spec)), bindings. }
  unfold JsMap.has in Hhas.
  destruct (JsMap.get String.eqb k (BoundPorts.ports reg)) as [v|] eqn:Hk;
    [|discriminate].
  exists spec, v. split; [assumption|exact Hk].
Qed.

(** X14.  What the poller waited for can be looked up: when a snapshot has
    every wanted port, its host ports are in [1, 65535] and
    [fromInspectResult] returns a registry for it, [getBinding] finds a port
    for every wanted declaration, by the key [port/protocol] and, for a
    protocol without ["/"], by the port number and the protocol. *)
Theorem exposed_ports_are_bound (hostIps : list HostIp)
    (wanted : list PortWithOptionalBinding) (r : Result ContainerInspectInfo)
    (reg : BoundPorts.t) :
  allPortsExposed wanted r = Ok true ->
  BoundPorts.fromInspectResult isIP hostIps (mappedInspectResult r) = Ok reg ->
  validHostPorts (InspectResult.ports (mappedInspectResult r)) ->
  forall p,
    In p wanted ->
    exists spec v,
      normalize p = Ok spec
      /\ 1 <= v <= 65535
      /\ (forall q,
            BoundPorts.getBinding
              (KeyString (portKey (containerPort spec) (protocol spec))) q reg = Ok v)
      /\ (Js.includes Js.slash (protocol spec) = false ->
          BoundPorts.getBinding (KeyNumber (containerPort spec)) (Some (protocol spec)) reg
          = Ok v).
Proof.
  intros Hall H Hhp p Hp.
  destruct (exposed_stored hostIps wanted r reg Hall H Hhp) as (Hv & Hs & _ & Hget).
  destruct (Hget p Hp) as (spec & v & Hn & Hg).
  exists spec, v. split; [assumption|]. split.
  - apply get_In in Hg. now apply Hv in Hg.
  - split.
    + intros q. now apply getBinding_stored.
    + intros Hslash. now apply getBinding_number_stored.
Qed.

(** X15.  The ports survive the filter: with declarations of pairwise
    distinct container ports and protocols without ["/"], when a snapshot
    has every wanted port, its host ports are in [1, 65535] and
    [fromInspectResult] returns a registry for it, [filter] by the same
    declarations returns a registry in which [getBinding] by port number
    and protocol finds, for every declaration, the port it finds in the
    unfiltered registry. *)
Theorem wanted_ports_survive_filter (hostIps : list HostIp)
    (wanted : list PortWithOptionalBinding) (specs : list PortSpec)
    (r : Result ContainerInspectInfo) (reg : BoundPorts.t) :
  normalizedAs wanted specs ->
  NoDup (map containerPort specs) ->
  (forall s, In s specs -> Js.includes Js.slash (protocol s) = false) ->
  allPortsExposed wanted r = Ok true ->
  BoundPorts.fromInspectResult isIP hostIps (mappedInspectResult r) = Ok reg ->
  validHostPorts (InspectResult.ports (mappedInspectResult r)) ->
  exists filtered,
    BoundPorts.filter wanted reg = Ok filtered
    /\ forall s,
         In s specs ->
         exists v,
           BoundPorts.getBinding (KeyNumber (containerPort s)) (Some (protocol s)) reg
           = Ok v
           /\ BoundPorts.getBinding (KeyNumber (containerPort s)) (Some (protocol s))
                filtered = Ok v.
Proof.
  intros Hs Hdist Hslash Hall H Hhp.
  destruct (exposed_stored hostIps wanted r reg Hall H Hhp) as (Hv & Hst & Hb & Hget).
  pose proof (filter_stable wanted specs reg (built_NoDup_keys reg Hb) Hst Hs) as Hf.
  eexists. split; [exact Hf|]. intros s Hin.
  destruct (Forall2_In_r _ _ _ _ _ s Hs Hin) as (p & Hp & Hn).
  destruct (Hget p Hp) as (spec & v & Hn' & Hg).
  rewrite Hn in Hn'. injection Hn' as <-.
  specialize (Hslash s Hin). exists v. split.
  - now apply getBinding_number_stored.
  - apply getBinding_number_stored; [|assumption|].
    + intros k w Hkw. simpl in Hkw. apply filter_In in Hkw. now apply (Hv k w).
    + rewrite (storedKey_portKey _ _ _ Hslash) in *. simpl.
      rewrite (get_filter_keys Z (BoundPorts.retained (declared specs))).
      assert (Hr : BoundPorts.retained (declared specs)
                     (portKey (containerPort s) (Js.toLowerCase (protocol s))) = true).
      { apply retained_portKey; [now rewrite includes_toLowerCase|].
        exists (protocol s). split; [|now rewrite toLowerCase_idem].
        rewrite get_declared. apply (lastDeclared_distinct _ _ _ Hdist).
        now destruct s. }
      now rewrite Hr.
Qed.

End PipelineProperties.

Lemma exposed_ports_are_bound_witness :
  let snapshot :=
    InspectResult.mk
      [("8080/tcp", [mkBinding "0.0.0.0" 45000]); ("9090/udp", [mkBinding "0.0.0.0" 46000])] in
  exists spec v,
    normalize (PortString "9090/udp") = Ok spec
    /\ 1 <= v <= 65535
    /\ BoundPorts.getBinding (KeyNumber (containerPort spec)) (Some (protocol spec))
         (BoundPorts.mk [("8080/tcp", 45000); ("9090/udp", 46000)]) = Ok v.
Proof.
  intros snapshot.
  assert (Hhp : validHostPorts (InspectResult.ports snapshot)).
  { intros g bs b [[= <- <-]|[[= <- <-]|[]]] Hb; simpl in Hb;
      repeat (destruct Hb as [<-|Hb]; [simpl; lia|]); destruct Hb. }
  destruct (exposed_ports_are_bound sampleIsIP InspectResult.t
              [mkHostIp "127.0.0.1" IPv4] [PortNumber 8080; PortString "9090/udp"]
              (mkResult snapshot snapshot)
              (BoundPorts.mk [("8080/tcp", 45000); ("9090/udp", 46000)])
              eq_refl eq_refl Hhp (PortString "9090/udp"))
    as (spec & v & Hn & Hv & _ & Hnum).
  - right. left. reflexivity.
  - exists spec, v. split; [exact Hn|]. split; [exact Hv|].
    apply Hnum. injection Hn as <-. reflexivity.
Defined.

Lemma wanted_ports_survive_filter_witness :
  let snapshot :=
    InspectResult.mk
      [("8080/tcp", [mkBinding "0.0.0.0" 45000]); ("9090/udp", [mkBinding "0.0.0.0" 46000]);
       ("7070/tcp", [mkBinding "0.0.0.0" 47000])] in
  exists filtered,
    BoundPorts.filter [PortNumber 8080; PortString "9090/udp"]
      (BoundPorts.mk [("8080/tcp", 45000); ("9090/udp", 46000); ("7070/tcp", 47000)])
    = Ok filtered
    /\ BoundPorts.getBinding (KeyNumber 9090) (Some "udp") filtered = Ok 46000.
Proof.
  intros snapshot.
  assert (Hhp : validHostPorts (InspectResult.ports snapshot)).
  { intros g bs b [[= <- <-]|[[= <- <-]|[[= <- <-]|[]]]] Hb; simpl in Hb;
      repeat (destruct Hb as [<-|Hb]; [simpl; lia|]); destruct Hb. }
  assert (Hs : normalizedAs [PortNumber 8080; PortString "9090/udp"]
                 [mkPortSpec 8080 "tcp"; mkPortSpec 9090 "udp"])
    by (repeat constructor).
  assert (Hd : NoDup (map containerPort [mkPortSpec 8080 "tcp"; mkPortSpec 9090 "udp"]))
    by (repeat constructor; simpl; intuition discriminate).
  assert (Hslash : forall s, In s [mkPortSpec 8080 "tcp"; mkPortSpec 9090 "udp"] ->
                             Js.includes Js.slash (protocol s) = false)
    by (intros s [<-|[<-|[]]]; reflexivity).
  destruct (wanted_ports_survive_filter sampleIsIP InspectResult.t
              [mkHostIp "127.0.0.1" IPv4] [PortNumber 8080; PortString "9090/udp"]
              [mkPortSpec 8080 "tcp"; mkPortSpec 9090 "udp"]
              (mkResult snapshot snapshot)
              (BoundPorts.mk [("8080/tcp", 45000); ("9090/udp", 46000); ("7070/tcp", 47000)])
              Hs Hd Hslash eq_refl eq_refl Hhp)
    as (filtered & Hf & Hall).
  exists filtered. split; [exact Hf|].
  destruct (Hall (mkPortSpec 9090 "udp")) as (v & Hreg & Hfil).
  - right. left. reflexivity.
  - injection Hreg as <-. exact Hfil.
Defined.

Lemma resolve_outcome_witness :
  resolveHostPortBinding sampleIsIP [mkHostIp "127.0.0.1" IPv4; mkHostIp "::1" IPv6] []
  = Throw NoHostPortForFamily
  /\ resolveHostPortBinding sampleIsIP [mkHostIp "127.0.0.1" IPv4]
       [mkBinding "::" 46000; mkBinding "::1" 46001]
     = Throw NoHostPortForFamily.
Proof.
  split.
  - apply (proj2 (proj2 (resolve_outcome sampleIsIP
                           [mkHostIp "127.0.0.1" IPv4; mkHostIp "::1" IPv6] []))).
    split; [reflexivity|]. intros h b _ [].
  - apply (proj2 (proj2 (resolve_outcome sampleIsIP [mkHostIp "127.0.0.1" IPv4]
                           [mkBinding "::" 46000; mkBinding "::1" 46001]))).
    split; [reflexivity|].
    intros h b [<-|[]] [<-|[<-|[]]]; discriminate.
Defined.

Lemma filter_sound_witness :
  (exists p, In p [PortNumber 8080; PortString "http/tcp"]
             /\ normalize p = Throw InvalidPortSpec)
  /\ validPorts (BoundPorts.mk [("8080/tcp", 45000)]).
Proof.
  split.
  - apply (proj2 (filter_sound [PortNumber 8080; PortString "http/tcp"]
                    (BoundPorts.mk [("8080/tcp", 45000); ("9090/udp", 46000)]))).
    reflexivity.
  - destruct (proj1 (filter_sound [PortNumber 8080]
                       (BoundPorts.mk [("8080/tcp", 45000); ("9090/udp", 46000)]))
                (BoundPorts.mk [("8080/tcp", 45000)]) eq_refl) as (_ & _ & Hv).
    apply Hv. intros k v [[= <- <-]|[[= <- <-]|[]]]; lia.
Defined.

(** ** The host port 0 *)

(** X16.  A binding with host port 0 counts as none, since the lookups
    test [!binding]: after [setBinding] of 0, [getBinding] by the same
    number and protocol, or by the same string when the string is stored
    under itself, throws [BindingNotFound], and [getFirstBinding] on a
    registry that holds this binding alone throws [NoBindingsPresent]. *)
Theorem zero_port_is_missing (this : BoundPorts.t) (protocol protocol' : option string) :
  (forall n,
     BoundPorts.getBinding (KeyNumber n) protocol
       (BoundPorts.setBinding (KeyNumber n) 0 protocol this)
     = Throw (BindingNotFound (portKey n (Js.toLowerCase (withDefault protocol)))))
  /\ (forall s,
        stableKey s ->
        BoundPorts.getBinding (KeyString s) protocol'
          (BoundPorts.setBinding (KeyString s) 0 protocol this)
        = Throw (BindingNotFound s))
  /\ (forall key,
        BoundPorts.getFirstBinding (BoundPorts.setBinding key 0 protocol BoundPorts.new)
        = Throw NoBindingsPresent).
Proof.
  split; [|split].
  - intros n. unfold BoundPorts.getBinding. rewrite setBinding_storedKey.
    cbn [storedKey]. now rewrite get_set_eq.
  - intros s Hs.
    assert (Hk : storedKey (KeyString s) protocol = s) by exact Hs.
    unfold BoundPorts.getBinding. rewrite setBinding_storedKey, Hk, get_set_eq.
    cbn [falsy Z.eqb andb].
    destruct (Js.includes Js.slash s) eqn:Hi; [|reflexivity].
    destruct (split_includes _ _ Hi) as (a & b & rest & E & _).
    unfold stableKey, storedKey in Hs. rewrite E in *. now rewrite Hs, get_set_eq.
  - intros key. unfold BoundPorts.getFirstBinding. now rewrite setBinding_storedKey.
Qed.

Lemma zero_port_is_missing_witness :
  BoundPorts.getBinding (KeyString "8080/tcp") None
    (BoundPorts.setBinding (KeyString "8080/tcp") 0 None
       (BoundPorts.mk [("8080/tcp", 45000)]))
  = Throw (BindingNotFound "8080/tcp").
Proof.
  destruct (zero_port_is_missing (BoundPorts.mk [("8080/tcp", 45000)]) None None)
    as (_ & Hs & _).
  apply Hs. reflexivity.
Defined.

(** ** When [fromInspectResult] throws *)

Section FromInspectResultErrors.

Variable isIP : string -> Z.

Lemma insertResolved_cases (hostIps : list HostIp)
    (entries : list (string * HostPortBindings)) :
  forall acc,
    ((exists reg, BoundPorts.insertResolved isIP hostIps entries acc = Ok reg)
     /\ forall g bs, In (g, bs) entries ->
                     exists port, resolveHostPortBinding isIP hostIps bs = Ok port)
    \/ (BoundPorts.insertResolved isIP hostIps entries acc = Throw NoHostPortForFamily
        /\ exists g bs, In (g, bs) entries
                        /\ resolveHostPortBinding isIP hostIps bs
                           = Throw NoHostPortForFamily).
Proof.
  induction entries as [|[g bs] rest IH]; intros acc.
  - left. split; [now exists acc|intros g bs []].
  - rewrite insertResolved_cons.
    destruct (resolveHostPortBinding isIP hostIps bs) as [port|e] eqn:Hr; cbn [bind].
    + destruct (IH (BoundPorts.setBinding (KeyString g) port None acc))
        as [[Hreg Hall]|[Ht (g' & bs' & Hin & Hr')]].
      * left. split; [assumption|].
        intros g' bs' [[= <- <-]|Hin]; [now exists port|now apply (Hall g' bs')].
      * right. split; [assumption|]. exists g', bs'. split; [now right|assumption].
    + pose proof (resolve_Throw isIP hostIps bs e Hr) as ->.
      right. split; [reflexivity|]. exists g, bs. split; [now left|assumption].
Qed.

(** X17.  [fromInspectResult] throws [NoHostPortForFamily] exactly when the
    resolver throws it for the bindings of some group of the snapshot, as
    it does for every group with an empty binding list; when the resolver
    returns a port for every group, [fromInspectResult] returns a
    registry. *)
Theorem fromInspectResult_throws (hostIps : list HostIp) (inspectResult : InspectResult.t) :
  (BoundPorts.fromInspectResult isIP hostIps inspectResult = Throw NoHostPortForFamily
   <-> exists g bs, In (g, bs) (InspectResult.ports inspectResult)
                    /\ resolveHostPortBinding isIP hostIps bs
                       = Throw NoHostPortForFamily)
  /\ ((forall g bs, In (g, bs) (InspectResult.ports inspectResult) ->
                    exists port, resolveHostPortBinding isIP hostIps bs = Ok port) ->
      exists reg, BoundPorts.fromInspectResult isIP hostIps inspectResult = Ok reg)
  /\ (forall g, In (g, []) (InspectResult.ports inspectResult) ->
                BoundPorts.fromInspectResult isIP hostIps inspectResult
                = Throw NoHostPortForFamily).
Proof.
  unfold BoundPorts.fromInspectResult.
  destruct (insertResolved_cases hostIps (InspectResult.ports inspectResult)
              BoundPorts.new) as [[[reg Hreg] Hall]|[Ht (g & bs & Hin & Hr)]].
  - rewrite Hreg. split; [|split].
    + split; [discriminate|]. intros (g & bs & Hin & Hr).
      destruct (Hall g bs Hin) as [port Hp]. congruence.
    + intros _. now exists reg.
    + intros g Hin. destruct (Hall g [] Hin) as [port Hp].
      rewrite resolve_empty in Hp. discriminate Hp.
  - rewrite Ht. split; [|split].
    + split; [intros _; now exists g, bs|reflexivity].
    + intros Hall. destruct (Hall g bs Hin) as [port Hp]. congruence.
    + reflexivity.
Qed.

End FromInspectResultErrors.

Lemma fromInspectResult_throws_witness :
  BoundPorts.fromInspectResult sampleIsIP [mkHostIp "127.0.0.1" IPv4]
    (InspectResult.mk [("8080/tcp", [mkBinding "0.0.0.0" 45000]); ("9090/udp", [])])
  = Throw NoHostPortForFamily
  /\ BoundPorts.fromInspectResult sampleIsIP [mkHostIp "127.0.0.1" IPv4]
       (InspectResult.mk [("8080/tcp", [mkBinding "::" 45000])])
     = Throw NoHostPortForFamily.
Proof.
  split.
  - apply (proj2 (proj2 (fromInspectResult_throws sampleIsIP [mkHostIp "127.0.0.1" IPv4]
                           (InspectResult.mk
                              [("8080/tcp", [mkBinding "0.0.0.0" 45000]);
                               ("9090/udp", [])])))
             "9090/udp").
    right. left. reflexivity.
  - apply (proj1 (fromInspectResult_throws sampleIsIP [mkHostIp "127.0.0.1" IPv4]
                    (InspectResult.mk [("8080/tcp", [mkBinding "::" 45000])]))).
    exists "8080/tcp", [mkBinding "::" 45000]. split; [now left|reflexivity].
Defined.
